(** * RopInCpp: railway-oriented [Result] and [MutableResult] (src/main.cpp)

    A shallow embedding of the two class templates of [main.cpp] and of the
    manuscript publishing pipeline built on them, followed by the properties
    of the specification.

    Conventions of the embedding.
    - A C++ callable is a function into the monad [prog W]: it may read and
      write its captured environment [W] (call counters, logs, the clock) and
      it may have undefined behaviour ([None]).
    - [int] and [std::time_t] are [Z]; [std::string] is [string];
      [std::vector<std::string>] is [list string].
    - [std::shared_ptr<ValueType>] is an optional location ([None] is
      [nullptr]) into a heap of cells, so that copies of a [MutableResult]
      alias the same cell.
    - A callable passed to a bind operation reaches the receiver only through
      the argument it is handed, and otherwise touches its own environment. *)

From stdpp Require Import base option gmap strings.
From Stdlib Require Import ZArith DecimalString.
From Stdlib Require DecimalPos DecimalZ.

Local Open Scope string_scope.
Local Open Scope Z_scope.

(** ** Programs: state passing with undefined behaviour *)

Definition prog (S A : Type) : Type := S → option (A * S).

#[global] Instance prog_ret {S} : MRet (prog S) := λ A a s, Some (a, s).

#[global] Instance prog_bind {S} : MBind (prog S) :=
  λ A B f c s, match c s with
               | Some (a, s') => f a s'
               | None => None
               end.

(** The undefined program: dereferencing a null pointer, signed overflow. *)
Definition undefined {S A} : prog S A := λ _, None.

(** ** Value-initialisation, [T()] and [T{}] *)

Class DefaultConstructible (T : Type) := value_init : T.

#[global] Instance int_default : DefaultConstructible Z := 0.
#[global] Instance bool_default : DefaultConstructible bool := false.
#[global] Instance string_default : DefaultConstructible string := EmptyString.
#[global] Instance vector_default {T} : DefaultConstructible (list T) := [].

(** ** Call-counting stubs

    [counted id f] behaves as [f] and records [id] in a call log kept next to
    the environment of [f], once per invocation. *)

Definition counted {W A R} (id : nat) (f : A → prog W R)
  : A → prog (list nat * W) R :=
  λ a s, match f a s.2 with
         | Some (r, w') => Some (r, (id :: s.1, w'))
         | None => None
         end.

(** ** [template <typename ValueType, typename ErrorType> class Result] *)

Module Result.

Record t (ValueType ErrorType : Type) : Type := mk {
  mIsSuccess : bool;
  mValue : ValueType;
  mError : ErrorType;
}.
Arguments mk {ValueType ErrorType}.
Arguments mIsSuccess {ValueType ErrorType}.
Arguments mValue {ValueType ErrorType}.
Arguments mError {ValueType ErrorType}.

(** The argument of the two private converting constructors. Both are
    templates over one forwarding reference; [std::is_convertible_v] enables
    the first for an argument convertible to [ValueType] and the second for
    one convertible to [ErrorType]. A call compiles when exactly one of them
    is enabled, so the argument is of one kind or of the other. *)
Inductive ctor_arg (ValueType ErrorType : Type) : Type :=
| FromValue (value : ValueType)
| FromError (error : ErrorType).
Arguments FromValue {ValueType ErrorType}.
Arguments FromError {ValueType ErrorType}.

Section Members.
Context {ValueType ErrorType : Type}.
Context `{!DefaultConstructible ValueType, !DefaultConstructible ErrorType}.

(** [Result(T&& value) : mIsSuccess(true), mValue(value), mError()] and
    [Result(E&& error) : mIsSuccess(false), mValue(), mError(error)]. *)
Definition construct (a : ctor_arg ValueType ErrorType) : t ValueType ErrorType :=
  match a with
  | FromValue value => mk true value value_init
  | FromError error => mk false value_init error
  end.

(** [static Result Success(T&& value) { return Result(std::forward<T>(value)); }] *)
Definition Success (value : ctor_arg ValueType ErrorType) : t ValueType ErrorType :=
  construct value.

(** [static Result Failure(E&& error) { return Result(std::forward<E>(error)); }] *)
Definition Failure (error : ctor_arg ValueType ErrorType) : t ValueType ErrorType :=
  construct error.

Definition IsSuccess (r : t ValueType ErrorType) : bool := mIsSuccess r.
Definition Value (r : t ValueType ErrorType) : ValueType := mValue r.
Definition Error (r : t ValueType ErrorType) : ErrorType := mError r.

End Members.

Section Bind.
Context {ValueType ErrorType U W : Type}.
Context `{!DefaultConstructible U, !DefaultConstructible ErrorType}.

(** [template <typename Func> auto Bind(Func func) const]. In the failure
    branch [mError] is an lvalue of [ErrorType], so [ResultU::Failure]
    reaches the error constructor. *)
Definition Bind (r : t ValueType ErrorType)
    (func : ValueType → prog W (t U ErrorType)) : prog W (t U ErrorType) :=
  if mIsSuccess r then func (mValue r)
  else mret (Failure (FromError (mError r))).

(** [Result<U, ErrorType> Bind(std::function<Result<U, ErrorType>(ValueType)> func) const],
    the overload taken when the argument already is a [std::function]. *)
Definition Bind_function (r : t ValueType ErrorType)
    (func : ValueType → prog W (t U ErrorType)) : prog W (t U ErrorType) :=
  if mIsSuccess r then func (mValue r)
  else mret (Failure (FromError (mError r))).

End Bind.

(** The public member functions, as calls on a receiver. All of them are
    [const]-qualified and [Result] has no [mutable] member: a call leaves the
    receiver as it found it, whatever it returns. [invoke] runs the call and
    gives back the receiver. *)
Inductive call (W ValueType ErrorType : Type) : Type :=
| CallBind (U : Type) (dU : DefaultConstructible U)
    (func : ValueType → prog W (t U ErrorType))
| CallIsSuccess
| CallValue
| CallError.
Arguments CallBind {W ValueType ErrorType}.
Arguments CallIsSuccess {W ValueType ErrorType}.
Arguments CallValue {W ValueType ErrorType}.
Arguments CallError {W ValueType ErrorType}.

Section Calls.
Context {W ValueType ErrorType : Type}.
Context `{!DefaultConstructible ErrorType}.

Definition invoke (c : call W ValueType ErrorType) (r : t ValueType ErrorType)
  : prog W (t ValueType ErrorType) :=
  match c with
  | CallBind U dU func => _ ← Bind r func; mret r
  | CallIsSuccess => let _ := IsSuccess r in mret r
  | CallValue => let _ := Value r in mret r
  | CallError => let _ := Error r in mret r
  end.

Fixpoint invoke_all (cs : list (call W ValueType ErrorType))
    (r : t ValueType ErrorType) : prog W (t ValueType ErrorType) :=
  match cs with
  | [] => mret r
  | c :: cs' => r' ← invoke c r; invoke_all cs' r'
  end.

End Calls.

End Result.

(** ** [template <typename ValueType, typename ErrorType> class MutableResult] *)

Module MutableResult.

(** [using ValuePtr = std::shared_ptr<ValueType>]: [None] is [nullptr]. *)
Definition ValuePtr : Type := option positive.

Record t (ErrorType : Type) : Type := mk {
  mValue : ValuePtr;
  mError : ErrorType;
  mIsSuccess : bool;
}.
Arguments mk {ErrorType}.
Arguments mValue {ErrorType}.
Arguments mError {ErrorType}.
Arguments mIsSuccess {ErrorType}.

(** The cells owned by shared pointers, and the environment of the callables. *)
Record store (ValueType W : Type) : Type := mkStore {
  heap : gmap positive ValueType;
  env : W;
}.
Arguments mkStore {ValueType W}.
Arguments heap {ValueType W}.
Arguments env {ValueType W}.

Section Members.
Context {ValueType ErrorType W : Type}.
Context `{!DefaultConstructible ErrorType}.

(** [std::make_shared<ValueType>(value)]: a new cell holding a copy of
    [value]. Running out of memory ([std::bad_alloc]) is left out. *)
Definition make_shared (value : ValueType) : prog (store ValueType W) ValuePtr :=
  λ s, let l := fresh (dom (heap s)) in
       Some (Some l, mkStore (<[l := value]> (heap s)) (env s)).

(** [explicit operator bool() const] of the shared pointer. *)
Definition non_null (p : ValuePtr) : bool :=
  match p with Some _ => true | None => false end.

(** [*p]: the contents of the cell, undefined on [nullptr]. *)
Definition deref (p : ValuePtr) : prog (store ValueType W) ValueType :=
  λ s, match p with
       | Some l => match heap s !! l with
                   | Some v => Some (v, s)
                   | None => None
                   end
       | None => None
       end.

(** [func] applied to [*p], taking its argument by reference: the callable
    sees the contents of the cell and leaves the contents it wants there. *)
Definition call_on_cell (p : ValuePtr) (func : ValueType → prog W ValueType)
  : prog (store ValueType W) unit :=
  λ s, match p with
       | Some l =>
           match heap s !! l with
           | Some v =>
               match func v (env s) with
               | Some (v', w') => Some ((), mkStore (<[l := v']> (heap s)) w')
               | None => None
               end
           | None => None
           end
       | None => None
       end.

(** [MutableResult(ValuePtr value, const ErrorType& error, bool isSuccess)] *)
Definition construct (value : ValuePtr) (error : ErrorType) (isSuccess : bool)
  : t ErrorType := mk value error isSuccess.

(** [return MutableResult(std::make_shared<ValueType>(value), {}, true);] *)
Definition Success (value : ValueType) : prog (store ValueType W) (t ErrorType) :=
  p ← make_shared value; mret (construct p value_init true).

(** [return MutableResult(nullptr, error, false);] *)
Definition Failure (error : ErrorType) : t ErrorType :=
  construct None error false.

(** [if (mIsSuccess && mValue)] then [func] is called on [*mValue];
    [return *this;] *)
Definition InPlaceBind (m : t ErrorType) (func : ValueType → prog W ValueType)
  : prog (store ValueType W) (t ErrorType) :=
  _ ← (if mIsSuccess m && non_null (mValue m)
       then call_on_cell (mValue m) func else mret ());
  mret m.

(** The body is that of [InPlaceBind]. The member is [const], which makes
    [mValue] a [const std::shared_ptr<ValueType>]; its [operator*] is a
    [const] member returning [ValueType&], so [func] is handed the same
    mutable reference. *)
Definition ReadOnlyBind (m : t ErrorType) (func : ValueType → prog W ValueType)
  : prog (store ValueType W) (t ErrorType) :=
  _ ← (if mIsSuccess m && non_null (mValue m)
       then call_on_cell (mValue m) func else mret ());
  mret m.

(** [const ValueType& Value() const { return *mValue; }] *)
Definition Value (m : t ErrorType) : prog (store ValueType W) ValueType :=
  deref (mValue m).

Definition Error (m : t ErrorType) : ErrorType := mError m.
Definition IsSuccess (m : t ErrorType) : bool := mIsSuccess m.

End Members.

(** The public member functions, as calls on a receiver; [invoke] gives back
    the receiver, which the two bind operations return themselves. *)
Inductive call (W ValueType : Type) : Type :=
| CallInPlaceBind (func : ValueType → prog W ValueType)
| CallReadOnlyBind (func : ValueType → prog W ValueType)
| CallValue
| CallError
| CallIsSuccess.
Arguments CallInPlaceBind {W ValueType}.
Arguments CallReadOnlyBind {W ValueType}.
Arguments CallValue {W ValueType}.
Arguments CallError {W ValueType}.
Arguments CallIsSuccess {W ValueType}.

Section Calls.
Context {ValueType ErrorType W : Type}.

Definition invoke (c : call W ValueType) (m : t ErrorType)
  : prog (store ValueType W) (t ErrorType) :=
  match c with
  | CallInPlaceBind func => InPlaceBind m func
  | CallReadOnlyBind func => ReadOnlyBind m func
  | CallValue => _ ← Value m; mret m
  | CallError => let _ := Error m in mret m
  | CallIsSuccess => let _ := IsSuccess m in mret m
  end.

Fixpoint invoke_all (cs : list (call W ValueType)) (m : t ErrorType)
  : prog (store ValueType W) (t ErrorType) :=
  match cs with
  | [] => mret m
  | c :: cs' => m' ← invoke c m; invoke_all cs' m'
  end.

(** The link between tag and cell: success-tagged exactly when the pointer
    is non-null, and a non-null pointer owns a live cell. *)
Definition cell_inv (s : store ValueType W) (m : t ErrorType) : Prop :=
  (mIsSuccess m = true ↔ non_null (mValue m) = true) ∧
  (∀ l, mValue m = Some l → is_Some (heap s !! l)).

End Calls.

End MutableResult.

(** ** The manuscript publishing pipeline *)

Module Manuscript.
Record t : Type := mk {
  id : Z;
  title : string;
  content : string;
  author : string;
  submission_date : Z;
}.
End Manuscript.

Module EditedManuscript.
Record t : Type := mk {
  id : Z;
  title : string;
  content : string;
  author : string;
  editorial_notes : list string;
  edit_date : Z;
}.
End EditedManuscript.

Module FormattedManuscript.
Record t : Type := mk {
  id : Z;
  title : string;
  formatted_content : string;
  author : string;
  format_type : string;
  format_date : Z;
}.
End FormattedManuscript.

Module ReviewedManuscript.
Record t : Type := mk {
  id : Z;
  title : string;
  formatted_content : string;
  author : string;
  approved : bool;
  review_comments : list string;
  review_date : Z;
}.
End ReviewedManuscript.

Module PublishedManuscript.
Record t : Type := mk {
  id : Z;
  title : string;
  formatted_content : string;
  author : string;
  isbn : string;
  publish_date : Z;
}.
End PublishedManuscript.

(** Value-initialisation of the aggregates, member by member. *)
#[global] Instance Manuscript_default : DefaultConstructible Manuscript.t :=
  Manuscript.mk value_init value_init value_init value_init value_init.
#[global] Instance EditedManuscript_default : DefaultConstructible EditedManuscript.t :=
  EditedManuscript.mk value_init value_init value_init value_init value_init value_init.
#[global] Instance FormattedManuscript_default : DefaultConstructible FormattedManuscript.t :=
  FormattedManuscript.mk value_init value_init value_init value_init value_init value_init.
#[global] Instance ReviewedManuscript_default : DefaultConstructible ReviewedManuscript.t :=
  ReviewedManuscript.mk value_init value_init value_init value_init value_init value_init
    value_init.
#[global] Instance PublishedManuscript_default : DefaultConstructible PublishedManuscript.t :=
  PublishedManuscript.mk value_init value_init value_init value_init value_init value_init.

(** The environment of the pipeline steps: the system clock. The [n]-th call
    of [std::time] reads [readings n]. *)
Record Clock : Type := mkClock {
  readings : nat → Z;
  reads : nat;
}.

(** [std::time(nullptr)] *)
Definition std_time : prog Clock Z :=
  λ c, Some (readings c (reads c), mkClock (readings c) (S (reads c))).

(** [std::to_string(int)]: decimal digits, with a minus sign below zero. *)
Definition to_string (n : Z) : string := NilZero.string_of_int (Z.to_int n).

(** [std::string::empty()] and [std::vector::empty()]. *)
Definition string_empty (s : string) : bool :=
  match s with EmptyString => true | String _ _ => false end.
Definition vector_empty {T} (v : list T) : bool :=
  match v with [] => true | _ :: _ => false end.

(** The line feed of the string literals. *)
Definition LF : string := String (Ascii.ascii_of_nat 10) EmptyString.

Definition FetchManuscript (manuscriptId : Z)
  : prog Clock (Result.t Manuscript.t string) :=
  if manuscriptId <=? 0 then
    mret (Result.Failure (Result.FromError "Invalid manuscript ID"))
  else
    now ← std_time;
    let m := Manuscript.mk manuscriptId "The Art of Programming"
               "Initial content..." "John Doe" now in
    mret (Result.Success (Result.FromValue m)).

Definition EditManuscript (m : Manuscript.t)
  : prog Clock (Result.t EditedManuscript.t string) :=
  if string_empty (Manuscript.content m) then
    mret (Result.Failure (Result.FromError "Empty manuscript content"))
  else
    now ← std_time;
    let em := EditedManuscript.mk (Manuscript.id m) (Manuscript.title m)
                (Manuscript.content m +:+ LF +:+ "Edited content...")
                (Manuscript.author m)
                ["Fixed grammar"; "Improved structure"] now in
    mret (Result.Success (Result.FromValue em)).

Definition FormatManuscript (em : EditedManuscript.t)
  : prog Clock (Result.t FormattedManuscript.t string) :=
  if vector_empty (EditedManuscript.editorial_notes em) then
    mret (Result.Failure (Result.FromError "No editorial notes found"))
  else
    now ← std_time;
    let fm := FormattedManuscript.mk (EditedManuscript.id em)
                (EditedManuscript.title em)
                (EditedManuscript.content em +:+ LF +:+
                   "Formatted according to style guide...")
                (EditedManuscript.author em) "IEEE" now in
    mret (Result.Success (Result.FromValue fm)).

Definition ReviewManuscript (fm : FormattedManuscript.t)
  : prog Clock (Result.t ReviewedManuscript.t string) :=
  if negb (String.eqb (FormattedManuscript.format_type fm) "IEEE") then
    mret (Result.Failure (Result.FromError "Invalid format type"))
  else
    now ← std_time;
    let rm := ReviewedManuscript.mk (FormattedManuscript.id fm)
                (FormattedManuscript.title fm)
                (FormattedManuscript.formatted_content fm)
                (FormattedManuscript.author fm) true
                ["Excellent work"; "Ready for publication"] now in
    mret (Result.Success (Result.FromValue rm)).

Definition PublishManuscript (rm : ReviewedManuscript.t)
  : prog Clock (Result.t PublishedManuscript.t string) :=
  if negb (ReviewedManuscript.approved rm) then
    mret (Result.Failure (Result.FromError "Manuscript not approved"))
  else
    now ← std_time;
    let pm := PublishedManuscript.mk (ReviewedManuscript.id rm)
                (ReviewedManuscript.title rm)
                (ReviewedManuscript.formatted_content rm)
                (ReviewedManuscript.author rm)
                ("ISBN-" +:+ to_string (ReviewedManuscript.id rm) +:+ "-2023")
                now in
    mret (Result.Success (Result.FromValue pm)).

(** The chain of [main]:
    [FetchManuscript(manuscriptId).Bind(EditManuscript).Bind(FormatManuscript)
       .Bind(ReviewManuscript).Bind(PublishManuscript)]. *)
Definition publishingPipeline (manuscriptId : Z)
  : prog Clock (Result.t PublishedManuscript.t string) :=
  fetched ← FetchManuscript manuscriptId;
  edited ← Result.Bind fetched EditManuscript;
  formatted ← Result.Bind edited FormatManuscript;
  reviewed ← Result.Bind formatted ReviewManuscript;
  Result.Bind reviewed PublishManuscript.

(** ** The closures of the examples *)

(** The range of [int]; signed overflow is undefined. *)
Definition int_min : Z := - 2 ^ 31.
Definition int_max : Z := 2 ^ 31 - 1.
Definition checked_int {W} (n : Z) : prog W Z :=
  if (int_min <=? n) && (n <=? int_max) then mret n else undefined.

(** [[](int& v) { v += 5; }] and [[](int& v) { v *= 2; }] *)
Definition add_five {W} (v : Z) : prog W Z := checked_int (v + 5).
Definition times_two {W} (v : Z) : prog W Z := checked_int (v * 2).

(** The chain [Result::Success(x).Bind(f1).Bind(f2).Bind(f3)]. *)
Definition chain3 {W X A B C E}
    `{!DefaultConstructible X, !DefaultConstructible A, !DefaultConstructible B,
      !DefaultConstructible C, !DefaultConstructible E}
    (x : X) (f1 : X → prog W (Result.t A E)) (f2 : A → prog W (Result.t B E))
    (f3 : B → prog W (Result.t C E)) : prog W (Result.t C E) :=
  r1 ← Result.Bind (Result.Success (Result.FromValue x)) f1;
  r2 ← Result.Bind r1 f2;
  Result.Bind r2 f3.

(** [auto m = MutableResult<int, std::string>::Success(0);
     m.InPlaceBind(add_five).InPlaceBind(times_two); return m.Value();] *)
Definition mutation_example {W} : prog (MutableResult.store Z W) Z :=
  m ← MutableResult.Success (ErrorType := string) 0;
  m1 ← MutableResult.InPlaceBind m add_five;
  _ ← MutableResult.InPlaceBind m1 times_two;
  MutableResult.Value m.

(** [auto m = MutableResult<int, std::string>::Success(0);
     m.ReadOnlyBind(add_five); return m.Value();] *)
Definition inspection_example {W} : prog (MutableResult.store Z W) Z :=
  m ← MutableResult.Success (ErrorType := string) 0;
  _ ← MutableResult.ReadOnlyBind m add_five;
  MutableResult.Value m.

(** Sample inputs: a heap without cells, and three steps of a chain over
    [int], [std::vector<std::string>], [std::size_t] and [int] again, with
    [std::string] errors. *)
Definition empty_store {V} : MutableResult.store V unit :=
  MutableResult.mkStore ∅ ().

#[global] Instance size_t_default : DefaultConstructible nat := 0%nat.

Definition digits_step (n : Z) : prog unit (Result.t (list string) string) :=
  if n <? 0 then mret (Result.Failure (Result.FromError "negative"))
  else mret (Result.Success (Result.FromValue [to_string n])).
Definition count_step (v : list string) : prog unit (Result.t nat string) :=
  mret (Result.Success (Result.FromValue (length v))).
Definition double_step (n : nat) : prog unit (Result.t Z string) :=
  mret (Result.Success (Result.FromValue (2 * Z.of_nat n))).

(** ** [main]

    The terminal: the clock of the pipeline and the text written to
    [std::cout] so far. *)
Record Console : Type := mkConsole {
  clock : Clock;
  cout_text : string;
}.

(** [std::cout << text] *)
Definition cout (text : string) : prog Console unit :=
  λ k, Some ((), mkConsole (clock k) (cout_text k +:+ text)).

(** A program of the pipeline, run at the terminal. *)
Definition with_clock {A} (p : prog Clock A) : prog Console A :=
  λ k, match p (clock k) with
       | Some (a, c') => Some (a, mkConsole c' (cout_text k))
       | None => None
       end.

Section Main.

(** [std::ctime], of the C library: the calendar text of a time stamp. *)
Variable ctime : Z → string.

(** [manuscriptId] stands for the value [std::cin >> manuscriptId] leaves in
    the variable; [std::endl] writes a line feed. The result is the exit
    status. *)
Definition main (manuscriptId : Z) : prog Console Z :=
  _ ← cout "Enter manuscript ID: ";
  publishingPipeline ← with_clock (publishingPipeline manuscriptId);
  _ ← (if Result.IsSuccess publishingPipeline then
         let result := Result.Value publishingPipeline in
         _ ← cout ("Successfully published!" +:+ LF);
         _ ← cout "Title: ";
         _ ← cout (PublishedManuscript.title result);
         _ ← cout LF;
         _ ← cout "Author: ";
         _ ← cout (PublishedManuscript.author result);
         _ ← cout LF;
         _ ← cout "ISBN: ";
         _ ← cout (PublishedManuscript.isbn result);
         _ ← cout LF;
         _ ← cout "Publish Date: ";
         cout (ctime (PublishedManuscript.publish_date result))
       else
         _ ← cout "Error in publishing pipeline: ";
         _ ← cout (Result.Error publishingPipeline);
         cout LF);
  mret 0.

End Main.

(** Sample inputs: a clock, a terminal with nothing printed yet, a stand-in
    for the calendar text, and manuscripts on either side of a stage. *)
Definition epoch : Clock := mkClock (λ n, 1700000000 + Z.of_nat n) 0.
Definition terminal : Console := mkConsole epoch EmptyString.
Definition seconds_text (t : Z) : string := to_string t +:+ LF.
Definition blank_manuscript : Manuscript.t :=
  Manuscript.mk 3 "Untitled" EmptyString "Jane Roe" 0.
Definition draft_manuscript : Manuscript.t :=
  Manuscript.mk 3 "Untitled" "Draft" "Jane Roe" 0.
Definition unedited_manuscript : EditedManuscript.t :=
  EditedManuscript.mk 3 "Untitled" "Draft" "Jane Roe" [] 0.
Definition plain_manuscript : FormattedManuscript.t :=
  FormattedManuscript.mk 3 "Untitled" "Draft" "Jane Roe" "ACM" 0.
Definition rejected_manuscript : ReviewedManuscript.t :=
  ReviewedManuscript.mk 3 "Untitled" "Draft" "Jane Roe" false [] 0.
Definition approved_manuscript : ReviewedManuscript.t :=
  ReviewedManuscript.mk 3 "Untitled" "Draft" "Jane Roe" true [] 0.

(** ** Predicates of the statements *)

(** The slot that the tag of a [Result] does not select holds the
    value-initialised object the constructors put there. *)
Definition unused_slot_default {V E}
    `{!DefaultConstructible V, !DefaultConstructible E} (r : Result.t V E) : Prop :=
  if Result.mIsSuccess r then Result.mError r = value_init
  else Result.mValue r = value_init.

(** [MutableResult::InPlaceBind] with the callables [f] then [g] run on the
    cell one after the other, as one callable. *)
Definition then_call {V W} (f g : V → prog W V) : V → prog W V :=
  λ v, v' ← f v; g v'.

(** * Properties of [Result] *)

Lemma Bind_unfold_failure {A B E W} `{!DefaultConstructible B, !DefaultConstructible E}
    (r : Result.t A E) (f : A → prog W (Result.t B E)) w :
  Result.mIsSuccess r = false →
  Result.Bind r f w = Some (Result.mk false value_init (Result.mError r), w).
Proof. intros Hr. unfold Result.Bind. rewrite Hr. reflexivity. Qed.

Lemma Bind_unfold_success {A B E W} `{!DefaultConstructible B, !DefaultConstructible E}
    (r : Result.t A E) (f : A → prog W (Result.t B E)) :
  Result.mIsSuccess r = true → Result.Bind r f = f (Result.mValue r).
Proof. intros Hr. unfold Result.Bind. rewrite Hr. reflexivity. Qed.

Lemma Bind_overloads_agree {A B E W} `{!DefaultConstructible B, !DefaultConstructible E}
    (r : Result.t A E) (f : A → prog W (Result.t B E)) :
  Result.Bind_function r f = Result.Bind r f.
Proof. reflexivity. Qed.

Section ResultFacts.
Context {X A B C E W : Type}.
Context `{!DefaultConstructible X, !DefaultConstructible A, !DefaultConstructible B,
          !DefaultConstructible C, !DefaultConstructible E}.

(** The factories do not look at their own name: the kind of the argument
    alone selects the constructor, and with it the tag. *)
Lemma factories_coincide (a : Result.ctor_arg A E) :
  Result.Success a = Result.Failure a.
Proof. reflexivity. Qed.

Lemma Success_of_value (v : A) :
  Result.Success (ErrorType := E) (Result.FromValue v) = Result.mk true v value_init.
Proof. reflexivity. Qed.

Lemma Failure_of_error (e : E) :
  Result.Failure (ValueType := A) (Result.FromError e) = Result.mk false value_init e.
Proof. reflexivity. Qed.

(** C1. [Bind] on a failure-tagged result [r] returns a failure-tagged result
    holding the error of [r], whatever the step function, and leaves the
    environment of the step function as it was: the step is not invoked, and
    a call-counting stub records no call. In a chain
    [Success(x).Bind(f1).Bind(f2).Bind(f3)] whose first step fails with [r],
    the final result is a failure holding the error of [r], and the call log
    holds the one call of [f1]: [f2] and [f3] are never called. *)
Theorem Bind_failure_short_circuits (r : Result.t A E) :
  Result.IsSuccess r = false →
  (∀ (f : A → prog W (Result.t B E)) (w : W),
     ∃ r', Result.Bind r f w = Some (r', w) ∧
           Result.IsSuccess r' = false ∧ Result.Error r' = Result.Error r) ∧
  (∀ (f : A → prog W (Result.t B E)) (id : nat) (log : list nat) (w : W),
     ∃ r', Result.Bind r (counted id f) (log, w) = Some (r', (log, w)) ∧
           Result.IsSuccess r' = false ∧ Result.Error r' = Result.Error r) ∧
  (∀ (x : X) (f1 : X → prog W (Result.t A E)) (f2 : A → prog W (Result.t B E))
     (f3 : B → prog W (Result.t C E)) (w w1 : W),
     f1 x w = Some (r, w1) →
     ∃ r', chain3 x (counted 1 f1) (counted 2 f2) (counted 3 f3) ([], w)
             = Some (r', ([1%nat], w1)) ∧
           Result.IsSuccess r' = false ∧ Result.Error r' = Result.Error r).
Proof.
  unfold Result.IsSuccess, Result.Error. intros Hr. split; [|split].
  - intros f w. eexists. rewrite Bind_unfold_failure by exact Hr. eauto.
  - intros f id log w. eexists. rewrite Bind_unfold_failure by exact Hr. eauto.
  - intros x f1 f2 f3 w w1 Hf1. eexists.
    unfold chain3, mbind, prog_bind.
    rewrite Bind_unfold_success by reflexivity.
    unfold counted at 1. cbn [fst snd Result.mValue Result.Success Result.construct].
    rewrite Hf1.
    rewrite Bind_unfold_failure by exact Hr.
    rewrite Bind_unfold_failure by reflexivity.
    cbn. eauto.
Qed.

(** C2. [Bind] on a success-tagged result is the step function applied to
    the held value: [r.Bind(f) == f(r.Value())], effects included. *)
Theorem Bind_success_applies (r : Result.t A E) (f : A → prog W (Result.t B E)) :
  Result.IsSuccess r = true → Result.Bind r f = f (Result.Value r).
Proof.
  unfold Result.IsSuccess, Result.Value, Result.Bind. intros Hr.
  rewrite Hr. reflexivity.
Qed.

End ResultFacts.

Lemma Bind_failure_short_circuits_witness :
  Result.IsSuccess
    (Result.Failure (ValueType := list string) (Result.FromError "negative")) = false ∧
  digits_step (-1) () = Some (Result.Failure (Result.FromError "negative"), ()) ∧
  ∃ r', chain3 (-1) (counted 1 digits_step) (counted 2 count_step)
          (counted 3 double_step) ([], ())
          = Some (r', ([1%nat], ())) ∧
        Result.IsSuccess r' = false ∧ Result.Error r' = "negative".
Proof.
  split; [reflexivity|]. split; [reflexivity|].
  apply (Bind_failure_short_circuits (X := Z) (C := Z)
           (Result.Failure (ValueType := list string) (Result.FromError "negative"))).
  - reflexivity.
  - reflexivity.
Defined.

Lemma Bind_success_applies_witness :
  Result.IsSuccess (Result.Success (ErrorType := string) (Result.FromValue 5)) = true ∧
  Result.Bind (Result.Success (Result.FromValue 5)) digits_step = digits_step 5.
Proof.
  split; [reflexivity|].
  apply (Bind_success_applies (Result.Success (Result.FromValue 5)) digits_step).
  reflexivity.
Defined.

(** * Properties of [MutableResult] *)

Section MutableResultFacts.
Context {V E W : Type}.
Context `{!DefaultConstructible E}.
Implicit Types (m : MutableResult.t E) (s : MutableResult.store V W).
Implicit Types (f g : V → prog W V).

Lemma InPlaceBind_failure m f s :
  MutableResult.mIsSuccess m = false → MutableResult.InPlaceBind m f s = Some (m, s).
Proof. intros Hm. unfold MutableResult.InPlaceBind. rewrite Hm. reflexivity. Qed.

Lemma InPlaceBind_null m f s :
  MutableResult.mValue m = None → MutableResult.InPlaceBind m f s = Some (m, s).
Proof.
  intros Hm. unfold MutableResult.InPlaceBind. rewrite Hm.
  rewrite andb_false_r. reflexivity.
Qed.

Lemma InPlaceBind_live m f s l v :
  MutableResult.mIsSuccess m = true →
  MutableResult.mValue m = Some l →
  MutableResult.heap s !! l = Some v →
  MutableResult.InPlaceBind m f s =
    match f v (MutableResult.env s) with
    | Some (v', w') =>
        Some (m, MutableResult.mkStore (<[l := v']> (MutableResult.heap s)) w')
    | None => None
    end.
Proof.
  intros Ht Hp Hl.
  unfold MutableResult.InPlaceBind, MutableResult.call_on_cell, mbind, prog_bind.
  rewrite Ht, Hp. cbn. rewrite Hl.
  destruct (f v (MutableResult.env s)) as [[v' w']|]; reflexivity.
Qed.

Lemma ReadOnlyBind_is_InPlaceBind m f :
  MutableResult.ReadOnlyBind m f = MutableResult.InPlaceBind m f.
Proof. reflexivity. Qed.

Lemma Success_allocates (v : V) s :
  MutableResult.Success (ErrorType := E) v s =
    Some (MutableResult.mk (Some (fresh (dom (MutableResult.heap s)))) value_init true,
          MutableResult.mkStore
            (<[fresh (dom (MutableResult.heap s)) := v]> (MutableResult.heap s))
            (MutableResult.env s)).
Proof. reflexivity. Qed.

Lemma fresh_cell_unused s :
  MutableResult.heap s !! fresh (dom (MutableResult.heap s)) = None.
Proof. apply not_elem_of_dom, is_fresh. Qed.

(** A bind operation returns its receiver and frees no cell. *)
Lemma InPlaceBind_returns_self m f s m' s' :
  MutableResult.InPlaceBind m f s = Some (m', s') →
  m' = m ∧ ∀ l, is_Some (MutableResult.heap s !! l) →
                is_Some (MutableResult.heap s' !! l).
Proof.
  unfold MutableResult.InPlaceBind, MutableResult.call_on_cell, mbind, prog_bind.
  destruct (MutableResult.mIsSuccess m && MutableResult.non_null (MutableResult.mValue m)).
  - destruct (MutableResult.mValue m) as [l|]; [|discriminate].
    destruct (MutableResult.heap s !! l) as [v|] eqn:Hl; [|discriminate].
    destruct (f v (MutableResult.env s)) as [[v' w']|]; [|discriminate].
    intros [= <- <-]. split; [reflexivity|]. cbn. intros l' Hl'.
    destruct (decide (l = l')) as [->|Hne].
    + rewrite lookup_insert_eq. eauto.
    + rewrite lookup_insert_ne by exact Hne. exact Hl'.
  - intros [= <- <-]. auto.
Qed.

Lemma invoke_returns_self (c : MutableResult.call W V) m s m' s' :
  MutableResult.invoke c m s = Some (m', s') →
  m' = m ∧ ∀ l, is_Some (MutableResult.heap s !! l) →
                is_Some (MutableResult.heap s' !! l).
Proof.
  destruct c as [f|f| | |]; cbn.
  - apply InPlaceBind_returns_self.
  - rewrite ReadOnlyBind_is_InPlaceBind. apply InPlaceBind_returns_self.
  - unfold mbind, prog_bind, MutableResult.Value, MutableResult.deref.
    destruct (MutableResult.mValue m) as [l|]; [|discriminate].
    destruct (MutableResult.heap s !! l); [|discriminate].
    intros [= <- <-]. auto.
  - intros [= <- <-]. auto.
  - intros [= <- <-]. auto.
Qed.

Lemma invoke_all_returns_self (cs : list (MutableResult.call W V)) m s m' s' :
  MutableResult.invoke_all cs m s = Some (m', s') →
  m' = m ∧ ∀ l, is_Some (MutableResult.heap s !! l) →
                is_Some (MutableResult.heap s' !! l).
Proof.
  revert m s. induction cs as [|c cs IH]; intros m s; cbn.
  - intros [= <- <-]. auto.
  - unfold mbind, prog_bind.
    destruct (MutableResult.invoke c m s) as [[m1 s1]|] eqn:Hc; [|discriminate].
    intros Hrest. apply invoke_returns_self in Hc as [-> Hs1].
    apply IH in Hrest as [-> Hs']. auto.
Qed.

(** Two mutations in a row act on the one cell, the second on what the
    first left there. *)
Lemma InPlaceBind_twice m f g s l v v1 w1 v2 w2 :
  MutableResult.IsSuccess m = true →
  MutableResult.mValue m = Some l →
  MutableResult.heap s !! l = Some v →
  f v (MutableResult.env s) = Some (v1, w1) →
  g v1 w1 = Some (v2, w2) →
  MutableResult.InPlaceBind m f s
    = Some (m, MutableResult.mkStore (<[l := v1]> (MutableResult.heap s)) w1) ∧
  (m1 ← MutableResult.InPlaceBind m f; MutableResult.InPlaceBind m1 g) s
    = Some (m, MutableResult.mkStore (<[l := v2]> (MutableResult.heap s)) w2) ∧
  (m1 ← MutableResult.InPlaceBind m f; _ ← MutableResult.InPlaceBind m1 g;
   MutableResult.Value m) s
    = Some (v2, MutableResult.mkStore (<[l := v2]> (MutableResult.heap s)) w2).
Proof.
  unfold MutableResult.IsSuccess. intros Ht Hp Hl Hf Hg.
  assert (H1 : MutableResult.InPlaceBind m f s
    = Some (m, MutableResult.mkStore (<[l := v1]> (MutableResult.heap s)) w1)).
  { rewrite (InPlaceBind_live m f s l v Ht Hp Hl), Hf. reflexivity. }
  assert (H2 : MutableResult.InPlaceBind m g
      (MutableResult.mkStore (<[l := v1]> (MutableResult.heap s)) w1)
    = Some (m, MutableResult.mkStore (<[l := v2]> (MutableResult.heap s)) w2)).
  { rewrite (InPlaceBind_live m g _ l v1 Ht Hp) by apply lookup_insert_eq.
    cbn. rewrite Hg, insert_insert_eq. reflexivity. }
  split; [exact H1|]. unfold mbind, prog_bind. rewrite H1, H2.
  split; [reflexivity|].
  unfold MutableResult.Value, MutableResult.deref. rewrite Hp. cbn.
  rewrite lookup_insert_eq. reflexivity.
Qed.

(** A callable that only inspects its argument leaves every cell as it was. *)
Lemma ReadOnlyBind_of_reader m f s m' s' :
  (∀ v w v' w', f v w = Some (v', w') → v' = v) →
  MutableResult.ReadOnlyBind m f s = Some (m', s') →
  m' = m ∧ MutableResult.heap s' = MutableResult.heap s.
Proof.
  intros Hread.
  unfold MutableResult.ReadOnlyBind, MutableResult.call_on_cell, mbind, prog_bind.
  destruct (MutableResult.mIsSuccess m && MutableResult.non_null (MutableResult.mValue m)).
  - destruct (MutableResult.mValue m) as [l|]; [|discriminate].
    destruct (MutableResult.heap s !! l) as [v|] eqn:Hl; [|discriminate].
    destruct (f v (MutableResult.env s)) as [[v' w']|] eqn:Hf; [|discriminate].
    intros [= <- <-]. apply Hread in Hf as ->. cbn.
    split; [reflexivity|]. apply insert_id, Hl.
  - intros [= <- <-]. auto.
Qed.

Lemma cell_inv_preserved m0 m f s m' s' :
  MutableResult.cell_inv s m0 →
  MutableResult.InPlaceBind m f s = Some (m', s') →
  MutableResult.cell_inv s' m0.
Proof.
  intros [Htag Hlive] Hb. apply InPlaceBind_returns_self in Hb as [_ Hkeep].
  split; [exact Htag|]. intros l Hl. apply Hkeep, Hlive, Hl.
Qed.

Lemma cell_inv_success_live m s :
  MutableResult.cell_inv s m →
  MutableResult.mIsSuccess m = true →
  ∃ l v, MutableResult.mValue m = Some l ∧ MutableResult.heap s !! l = Some v.
Proof.
  intros [Htag Hlive] Ht. apply Htag in Ht.
  destruct (MutableResult.mValue m) as [l|] eqn:Hp; [|discriminate].
  destruct (Hlive l eq_refl) as [v Hv]. eauto.
Qed.

End MutableResultFacts.

(** C3. On a success-tagged [MutableResult] whose cell holds [v],
    [InPlaceBind] runs the mutation on the cell itself and returns the
    receiver, and a second [InPlaceBind] starts from what the first left: the
    mutations accumulate in the one shared cell. In particular, after
    [m = Success(0)] and [m.InPlaceBind(v += 5).InPlaceBind(v *= 2)],
    [m.Value()] is [10]. *)
Theorem InPlaceBind_accumulates :
  (∀ (V E W : Type) (m : MutableResult.t E) (f g : V → prog W V)
     (s : MutableResult.store V W) l v v1 w1 v2 w2,
     MutableResult.IsSuccess m = true →
     MutableResult.mValue m = Some l →
     MutableResult.heap s !! l = Some v →
     f v (MutableResult.env s) = Some (v1, w1) →
     g v1 w1 = Some (v2, w2) →
     MutableResult.InPlaceBind m f s
       = Some (m, MutableResult.mkStore (<[l := v1]> (MutableResult.heap s)) w1) ∧
     (m1 ← MutableResult.InPlaceBind m f; _ ← MutableResult.InPlaceBind m1 g;
      MutableResult.Value m) s
       = Some (v2, MutableResult.mkStore (<[l := v2]> (MutableResult.heap s)) w2)) ∧
  (∀ (W : Type) (s : MutableResult.store Z W),
     mutation_example s
       = Some (10, MutableResult.mkStore
                     (<[fresh (dom (MutableResult.heap s)) := 10]> (MutableResult.heap s))
                     (MutableResult.env s))).
Proof.
  split.
  - intros V E W m f g s l v v1 w1 v2 w2 Ht Hp Hl Hf Hg.
    destruct (InPlaceBind_twice m f g s l v v1 w1 v2 w2 Ht Hp Hl Hf Hg)
      as (H1 & _ & H3).
    split; assumption.
  - intros W s. unfold mutation_example.
    unfold mbind at 1, prog_bind at 1. rewrite Success_allocates.
    set (l := fresh (dom (MutableResult.heap s))).
    set (m := MutableResult.mk (Some l) value_init true).
    set (s1 := MutableResult.mkStore (<[l := 0]> (MutableResult.heap s))
                 (MutableResult.env s)).
    destruct (InPlaceBind_twice (E := string) m add_five times_two s1 l 0 5
                (MutableResult.env s) 10 (MutableResult.env s))
      as (_ & _ & H3); try reflexivity.
    { apply lookup_insert_eq. }
    rewrite H3. subst s1. cbn. rewrite insert_insert_eq. reflexivity.
Qed.

Lemma InPlaceBind_accumulates_witness :
  (m1 ← MutableResult.InPlaceBind
          (MutableResult.mk (ErrorType := string) (Some 1%positive) value_init true)
          add_five;
   _ ← MutableResult.InPlaceBind m1 times_two;
   MutableResult.Value
     (MutableResult.mk (ErrorType := string) (Some 1%positive) value_init true))
    (MutableResult.mkStore {[ 1%positive := 0 ]} ())
  = Some (10, MutableResult.mkStore (<[1%positive := 10]> {[ 1%positive := 0 ]}) ()).
Proof.
  refine (proj2 (proj1 InPlaceBind_accumulates Z string unit
           (MutableResult.mk (Some 1%positive) value_init true) add_five times_two
           (MutableResult.mkStore {[ 1%positive := 0 ]} ()) 1%positive 0 5 () 10 ()
           _ _ _ _ _)).
  - reflexivity.
  - reflexivity.
  - reflexivity.
  - reflexivity.
  - reflexivity.
Defined.

(** C4. On a failure-tagged [MutableResult], [InPlaceBind] returns the
    receiver and changes nothing: neither the heap nor the environment of the
    mutation, which is therefore not invoked. For [m = Failure("err")] and a
    call-counting [v += 5], the call log stays as it was, [m.IsSuccess()] is
    [false] and [m.Error()] is ["err"]. *)
Theorem InPlaceBind_failure_noop :
  (∀ (V E W : Type) (m : MutableResult.t E) (f : V → prog W V)
     (s : MutableResult.store V W),
     MutableResult.IsSuccess m = false →
     MutableResult.InPlaceBind m f s = Some (m, s)) ∧
  (∀ (W : Type) (s : MutableResult.store Z (list nat * W)),
     MutableResult.InPlaceBind (MutableResult.Failure "err") (counted 1 add_five) s
       = Some (MutableResult.Failure "err", s) ∧
     MutableResult.IsSuccess (MutableResult.Failure "err") = false ∧
     MutableResult.Error (MutableResult.Failure "err") = "err").
Proof.
  split.
  - intros V E W m f s Hm. apply InPlaceBind_failure, Hm.
  - intros W s. split; [|split]; reflexivity.
Qed.

Lemma InPlaceBind_failure_noop_witness :
  MutableResult.InPlaceBind (MutableResult.mk (Some 1%positive) "stale" false)
    (counted 1 add_five)
    (MutableResult.mkStore {[ 1%positive := 7 ]} ([], ()))
  = Some (MutableResult.mk (Some 1%positive) "stale" false,
          MutableResult.mkStore {[ 1%positive := 7 ]} ([], ())).
Proof.
  apply (proj1 InPlaceBind_failure_noop Z string (list nat * unit)%type).
  reflexivity.
Defined.

(** C5. [ReadOnlyBind] hands the callable the same mutable reference as
    [InPlaceBind]: with [m = Success(0)], [m.ReadOnlyBind(v += 5)] leaves [5]
    in the cell, so the payload is not protected from the callable. The tag,
    the error and the pointer are left alone ([ReadOnlyBind_of_reader] covers
    callables that only read). *)
Theorem ReadOnlyBind_mutates_payload :
  ∀ (W : Type) (s : MutableResult.store Z W),
    inspection_example s
      = Some (5, MutableResult.mkStore
                   (<[fresh (dom (MutableResult.heap s)) := 5]> (MutableResult.heap s))
                   (MutableResult.env s)).
Proof.
  intros W s. unfold inspection_example.
  unfold mbind at 1, prog_bind at 1. rewrite Success_allocates.
  unfold mbind, prog_bind. rewrite ReadOnlyBind_is_InPlaceBind.
  rewrite (InPlaceBind_live _ _ _ (fresh (dom (MutableResult.heap s))) 0)
    by (reflexivity || apply lookup_insert_eq).
  unfold MutableResult.Value, MutableResult.deref.
  cbn [MutableResult.mValue MutableResult.heap MutableResult.env].
  change (add_five 0 (MutableResult.env s)) with (Some (5, MutableResult.env s)).
  cbn [MutableResult.mValue MutableResult.heap MutableResult.env].
  rewrite insert_insert_eq, lookup_insert_eq. reflexivity.
Qed.

(** C6, as stated, fails for [MutableResult::Value]: a failure holds
    [nullptr], and [Value()] dereferences it instead of reading a
    value-initialised payload. *)
Lemma MutableResult_Value_of_Failure_not_default :
  MutableResult.Value (ValueType := Z) (MutableResult.Failure "err") empty_store = None ∧
  ¬ ∃ s', MutableResult.Value (ValueType := Z) (MutableResult.Failure "err") empty_store
          = Some (value_init, s').
Proof. split; [reflexivity|]. intros [s' Hs']. discriminate Hs'. Qed.

(** C6, amended. [Value()] of a [Result] built by [Failure(e)] is the
    value-initialised [ValueType], and [Error()] of a [Result] built by
    [Success(v)] is the value-initialised [ErrorType]; [Error()] of a
    [MutableResult] built by [Success(v)] is the value-initialised
    [ErrorType] as well, while [Value()] of a [MutableResult] built by
    [Failure(e)] dereferences the null pointer and reads no payload at all. *)
Theorem wrong_slot_reads :
  (∀ (V E : Type) (dV : DefaultConstructible V) (dE : DefaultConstructible E) (e : E),
     Result.Value (Result.Failure (ValueType := V) (Result.FromError e)) = value_init) ∧
  (∀ (V E : Type) (dV : DefaultConstructible V) (dE : DefaultConstructible E) (v : V),
     Result.Error (Result.Success (ErrorType := E) (Result.FromValue v)) = value_init) ∧
  (∀ (V E W : Type) (dE : DefaultConstructible E) (v : V) (s : MutableResult.store V W),
     ∃ m s', MutableResult.Success (ErrorType := E) v s = Some (m, s') ∧
             MutableResult.IsSuccess m = true ∧
             MutableResult.Error m = value_init) ∧
  (∀ (V E W : Type) (e : E) (s : MutableResult.store V W),
     MutableResult.IsSuccess (MutableResult.Failure e) = false ∧
     MutableResult.Value (MutableResult.Failure e) s = None).
Proof.
  split; [|split; [|split]].
  - reflexivity.
  - reflexivity.
  - intros V E W dE v s. rewrite Success_allocates. eauto.
  - intros V E W e s. split; reflexivity.
Qed.

Lemma Result_invoke_returns_self {V E W} `{!DefaultConstructible E}
    (c : Result.call W V E) (r : Result.t V E) w r' w' :
  Result.invoke c r w = Some (r', w') → r' = r.
Proof.
  destruct c as [U dU f| | |]; cbn.
  - unfold mbind, prog_bind. destruct (Result.Bind r f w) as [[r1 w1]|]; [|discriminate].
    intros [= <- _]. reflexivity.
  - intros [= <- _]. reflexivity.
  - intros [= <- _]. reflexivity.
  - intros [= <- _]. reflexivity.
Qed.

Lemma Result_invoke_all_returns_self {V E W} `{!DefaultConstructible E}
    (cs : list (Result.call W V E)) (r : Result.t V E) w r' w' :
  Result.invoke_all cs r w = Some (r', w') → r' = r.
Proof.
  revert r w. induction cs as [|c cs IH]; intros r w; cbn.
  - intros [= <- _]. reflexivity.
  - unfold mbind, prog_bind.
    destruct (Result.invoke c r w) as [[r1 w1]|] eqn:Hc; [|discriminate].
    intros Hrest. apply Result_invoke_returns_self in Hc as ->.
    apply IH in Hrest. exact Hrest.
Qed.

(** C7. The tag never changes after construction. Whatever sequence of
    [Bind], [IsSuccess], [Value] and [Error] calls is made on a [Result], and
    whatever sequence of [InPlaceBind], [ReadOnlyBind], [Value], [Error] and
    [IsSuccess] calls on a [MutableResult], [IsSuccess()] answers afterwards
    what it answered before: [true] for an object built by [Success], [false]
    for one built by [Failure]. *)
Theorem tag_is_immutable :
  (∀ (V E W : Type) (dE : DefaultConstructible E) (cs : list (Result.call W V E))
     (r r' : Result.t V E) (w w' : W),
     Result.invoke_all cs r w = Some (r', w') →
     Result.IsSuccess r' = Result.IsSuccess r) ∧
  (∀ (V E : Type) (dV : DefaultConstructible V) (dE : DefaultConstructible E)
     (v : V) (e : E),
     Result.IsSuccess (Result.Success (ErrorType := E) (Result.FromValue v)) = true ∧
     Result.IsSuccess (Result.Failure (ValueType := V) (Result.FromError e)) = false) ∧
  (∀ (V E W : Type) (cs : list (MutableResult.call W V))
     (m m' : MutableResult.t E) (s s' : MutableResult.store V W),
     MutableResult.invoke_all cs m s = Some (m', s') →
     MutableResult.IsSuccess m' = MutableResult.IsSuccess m) ∧
  (∀ (V E W : Type) (dE : DefaultConstructible E) (cs : list (MutableResult.call W V))
     (v : V) (e : E) (m m' : MutableResult.t E) (s0 s s' : MutableResult.store V W),
     (MutableResult.Success v s0 = Some (m, s) →
      MutableResult.invoke_all cs m s = Some (m', s') →
      MutableResult.IsSuccess m' = true) ∧
     (MutableResult.invoke_all cs (MutableResult.Failure e) s = Some (m', s') →
      MutableResult.IsSuccess m' = false)).
Proof.
  split; [|split; [|split]].
  - intros V E W dE cs r r' w w' Hrun.
    apply Result_invoke_all_returns_self in Hrun as ->. reflexivity.
  - intros V E dV dE v e. split; reflexivity.
  - intros V E W cs m m' s s' Hrun.
    apply invoke_all_returns_self in Hrun as [-> _]. reflexivity.
  - intros V E W dE cs v e m m' s0 s s'. split.
    + rewrite Success_allocates. intros [= <- <-] Hrun.
      apply invoke_all_returns_self in Hrun as [-> _]. reflexivity.
    + intros Hrun. apply invoke_all_returns_self in Hrun as [-> _]. reflexivity.
Qed.

Lemma tag_is_immutable_witness :
  Result.IsSuccess (Result.Success (ErrorType := string) (Result.FromValue 5)) = true ∧
  MutableResult.IsSuccess
    (MutableResult.mk (ErrorType := string) (Some 1%positive) value_init true) = true ∧
  MutableResult.IsSuccess
    (MutableResult.mk (ErrorType := string) None "err" false) = false.
Proof.
  split; [|split].
  - apply (proj1 tag_is_immutable Z string unit _
             [Result.CallBind (list string) _ digits_step; Result.CallValue;
              Result.CallIsSuccess; Result.CallError]
             (Result.Success (Result.FromValue 5))
             (Result.Success (Result.FromValue 5)) () ()).
    reflexivity.
  - apply (proj1 (proj2 (proj2 (proj2 tag_is_immutable)) Z string unit _
             [MutableResult.CallInPlaceBind add_five;
              MutableResult.CallReadOnlyBind times_two;
              MutableResult.CallValue; MutableResult.CallError]
             0 "err"
             (MutableResult.mk (Some 1%positive) value_init true)
             (MutableResult.mk (Some 1%positive) value_init true)
             empty_store
             (MutableResult.mkStore (<[1%positive := 0]> ∅) ())
             (MutableResult.mkStore (<[1%positive := 10]> ∅) ()))).
    + reflexivity.
    + vm_compute. reflexivity.
  - apply (proj1 (proj2 (proj2 tag_is_immutable)) Z string unit
             [MutableResult.CallInPlaceBind add_five; MutableResult.CallIsSuccess]
             (MutableResult.Failure "err") (MutableResult.mk None "err" false)
             empty_store empty_store).
    reflexivity.
Defined.

(** C10. A [MutableResult] built by [Success] holds a non-null pointer to a
    live cell and one built by [Failure] holds [nullptr]; success-tagged
    exactly when the pointer is non-null is kept by [InPlaceBind] and
    [ReadOnlyBind], for the receiver and for every other object. Hence on a
    success-tagged object in such a state the guard of both bind operations
    passes and the callable is applied to the contents of the cell, and
    [Value()] reads the cell instead of dereferencing [nullptr]. *)
Theorem cell_matches_tag :
  (∀ (V E W : Type) (dE : DefaultConstructible E) (v : V) (s : MutableResult.store V W),
     ∃ m s', MutableResult.Success (ErrorType := E) v s = Some (m, s') ∧
             MutableResult.IsSuccess m = true ∧
             MutableResult.non_null (MutableResult.mValue m) = true ∧
             MutableResult.cell_inv s' m) ∧
  (∀ (V E W : Type) (e : E) (s : MutableResult.store V W),
     MutableResult.IsSuccess (MutableResult.Failure e) = false ∧
     MutableResult.mValue (MutableResult.Failure e) = None ∧
     MutableResult.cell_inv s (MutableResult.Failure e)) ∧
  (∀ (V E W : Type) (m0 m m' : MutableResult.t E) (f : V → prog W V)
     (s s' : MutableResult.store V W),
     MutableResult.cell_inv s m0 →
     MutableResult.InPlaceBind m f s = Some (m', s') ∨
     MutableResult.ReadOnlyBind m f s = Some (m', s') →
     m' = m ∧ MutableResult.cell_inv s' m0) ∧
  (∀ (V E W : Type) (m : MutableResult.t E) (f : V → prog W V)
     (s : MutableResult.store V W),
     MutableResult.cell_inv s m →
     MutableResult.IsSuccess m = true →
     ∃ l v, MutableResult.mValue m = Some l ∧
            MutableResult.heap s !! l = Some v ∧
            MutableResult.Value m s = Some (v, s) ∧
            MutableResult.InPlaceBind m f s =
              match f v (MutableResult.env s) with
              | Some (v', w') =>
                  Some (m, MutableResult.mkStore (<[l := v']> (MutableResult.heap s)) w')
              | None => None
              end ∧
            MutableResult.ReadOnlyBind m f s = MutableResult.InPlaceBind m f s).
Proof.
  split; [|split; [|split]].
  - intros V E W dE v s. rewrite Success_allocates. eexists _, _.
    split; [reflexivity|]. split; [reflexivity|]. split; [reflexivity|].
    split; [split; reflexivity|].
    cbn. intros l [= <-]. rewrite lookup_insert_eq. eauto.
  - intros V E W e s. split; [reflexivity|]. split; [reflexivity|].
    split; [split; discriminate|]. discriminate.
  - intros V E W m0 m m' f s s' Hinv Hb.
    assert (Hb' : MutableResult.InPlaceBind m f s = Some (m', s')).
    { destruct Hb as [Hb|Hb]; [exact Hb|].
      rewrite <- ReadOnlyBind_is_InPlaceBind. exact Hb. }
    split.
    + apply InPlaceBind_returns_self in Hb' as [-> _]. reflexivity.
    + exact (cell_inv_preserved m0 m f s m' s' Hinv Hb').
  - intros V E W m f s Hinv Ht.
    destruct (cell_inv_success_live m s Hinv Ht) as (l & v & Hp & Hl).
    exists l, v. split; [exact Hp|]. split; [exact Hl|]. split; [|split].
    + unfold MutableResult.Value, MutableResult.deref. rewrite Hp, Hl. reflexivity.
    + apply InPlaceBind_live; assumption.
    + reflexivity.
Qed.

Lemma cell_matches_tag_witness :
  MutableResult.cell_inv
    (MutableResult.mkStore (ValueType := Z) (<[1%positive := 5]> (<[1%positive := 0]> ∅)) ())
    (MutableResult.mk (ErrorType := string) (Some 1%positive) value_init true) ∧
  ∃ l v, MutableResult.mValue
           (MutableResult.mk (ErrorType := string) (Some 1%positive) value_init true)
           = Some l ∧
         MutableResult.heap (MutableResult.mkStore (<[1%positive := 0]> ∅) ()) !! l
           = Some v ∧
         MutableResult.Value
           (MutableResult.mk (ErrorType := string) (Some 1%positive) value_init true)
           (MutableResult.mkStore (<[1%positive := 0]> ∅) ())
           = Some (v, MutableResult.mkStore (<[1%positive := 0]> ∅) ()).
Proof.
  assert (Hinv : MutableResult.cell_inv
            (MutableResult.mkStore (ValueType := Z) (W := unit) (<[1%positive := 0]> ∅) ())
            (MutableResult.mk (ErrorType := string) (Some 1%positive) value_init true)).
  { split; [split; reflexivity|]. cbn. intros l [= <-]. exists 0. reflexivity. }
  split.
  - apply (proj1 (proj2 (proj2 cell_matches_tag)) Z string unit
             (MutableResult.mk (Some 1%positive) value_init true)
             (MutableResult.mk (Some 1%positive) value_init true)
             (MutableResult.mk (Some 1%positive) value_init true)
             add_five
             (MutableResult.mkStore (<[1%positive := 0]> ∅) ())
             (MutableResult.mkStore (<[1%positive := 5]> (<[1%positive := 0]> ∅)) ())
             Hinv).
    left. vm_compute. reflexivity.
  - destruct (proj2 (proj2 (proj2 cell_matches_tag)) Z string unit
                (MutableResult.mk (Some 1%positive) value_init true) add_five
                (MutableResult.mkStore (<[1%positive := 0]> ∅) ()) Hinv eq_refl)
      as (l & v & Hp & Hl & Hv & _).
    exists l, v. auto.
Defined.

(** * Properties of the publishing pipeline *)

Lemma FetchManuscript_rejects (manuscriptId : Z) (c : Clock) :
  manuscriptId ≤ 0 →
  FetchManuscript manuscriptId c
    = Some (Result.mk false value_init "Invalid manuscript ID", c).
Proof.
  intros Hid. unfold FetchManuscript.
  destruct (Z.leb_spec manuscriptId 0) as [_|Hgt]; [reflexivity|lia].
Qed.

Lemma FetchManuscript_accepts (manuscriptId : Z) (c : Clock) :
  0 < manuscriptId →
  FetchManuscript manuscriptId c
    = Some (Result.mk true
              (Manuscript.mk manuscriptId "The Art of Programming" "Initial content..."
                 "John Doe" (readings c (reads c)))
              value_init,
            mkClock (readings c) (S (reads c))).
Proof.
  intros Hid. unfold FetchManuscript.
  destruct (Z.leb_spec manuscriptId 0) as [Hle|_]; [lia|reflexivity].
Qed.

Lemma EditManuscript_accepts (m : Manuscript.t) (c : Clock) :
  string_empty (Manuscript.content m) = false →
  EditManuscript m c
    = Some (Result.mk true
              (EditedManuscript.mk (Manuscript.id m) (Manuscript.title m)
                 (Manuscript.content m +:+ LF +:+ "Edited content...")
                 (Manuscript.author m) ["Fixed grammar"; "Improved structure"]
                 (readings c (reads c)))
              value_init,
            mkClock (readings c) (S (reads c))).
Proof. intros Hm. unfold EditManuscript. rewrite Hm. reflexivity. Qed.

Lemma FormatManuscript_accepts (em : EditedManuscript.t) (c : Clock) :
  vector_empty (EditedManuscript.editorial_notes em) = false →
  FormatManuscript em c
    = Some (Result.mk true
              (FormattedManuscript.mk (EditedManuscript.id em) (EditedManuscript.title em)
                 (EditedManuscript.content em +:+ LF +:+
                    "Formatted according to style guide...")
                 (EditedManuscript.author em) "IEEE" (readings c (reads c)))
              value_init,
            mkClock (readings c) (S (reads c))).
Proof. intros Hm. unfold FormatManuscript. rewrite Hm. reflexivity. Qed.

Lemma ReviewManuscript_accepts (fm : FormattedManuscript.t) (c : Clock) :
  FormattedManuscript.format_type fm = "IEEE" →
  ReviewManuscript fm c
    = Some (Result.mk true
              (ReviewedManuscript.mk (FormattedManuscript.id fm)
                 (FormattedManuscript.title fm)
                 (FormattedManuscript.formatted_content fm)
                 (FormattedManuscript.author fm) true
                 ["Excellent work"; "Ready for publication"] (readings c (reads c)))
              value_init,
            mkClock (readings c) (S (reads c))).
Proof. intros Hm. unfold ReviewManuscript. rewrite Hm. reflexivity. Qed.

Lemma PublishManuscript_accepts (rm : ReviewedManuscript.t) (c : Clock) :
  ReviewedManuscript.approved rm = true →
  PublishManuscript rm c
    = Some (Result.mk true
              (PublishedManuscript.mk (ReviewedManuscript.id rm)
                 (ReviewedManuscript.title rm)
                 (ReviewedManuscript.formatted_content rm)
                 (ReviewedManuscript.author rm)
                 ("ISBN-" +:+ to_string (ReviewedManuscript.id rm) +:+ "-2023")
                 (readings c (reads c)))
              value_init,
            mkClock (readings c) (S (reads c))).
Proof. intros Hm. unfold PublishManuscript. rewrite Hm. reflexivity. Qed.

(** Every positive identifier goes through the five stages: each stage meets
    the precondition of the next. *)
Lemma publishingPipeline_accepts (manuscriptId : Z) (c : Clock) :
  0 < manuscriptId →
  ∃ r, publishingPipeline manuscriptId c
         = Some (r, mkClock (readings c) (5 + reads c)) ∧
       Result.IsSuccess r = true ∧
       PublishedManuscript.id (Result.Value r) = manuscriptId ∧
       PublishedManuscript.isbn (Result.Value r)
         = "ISBN-" +:+ to_string manuscriptId +:+ "-2023".
Proof.
  intros Hid. unfold publishingPipeline, mbind, prog_bind.
  rewrite FetchManuscript_accepts by exact Hid.
  rewrite Bind_unfold_success, EditManuscript_accepts by reflexivity.
  rewrite Bind_unfold_success, FormatManuscript_accepts by reflexivity.
  rewrite Bind_unfold_success, ReviewManuscript_accepts by reflexivity.
  rewrite Bind_unfold_success, PublishManuscript_accepts by reflexivity.
  eexists. split; [reflexivity|]. repeat split.
Qed.

(** C8. [FetchManuscript(42)] succeeds, and the chain through
    [EditManuscript], [FormatManuscript], [ReviewManuscript] and
    [PublishManuscript] ends in a success whose [isbn] is ["ISBN-42-2023"],
    whatever the clock reads; the clock is read once per stage, five times in
    all, so every stage has run. *)
Theorem pipeline_publishes_42 :
  ∀ c : Clock,
    (∃ r0, FetchManuscript 42 c = Some (r0, mkClock (readings c) (1 + reads c)) ∧
           Result.IsSuccess r0 = true ∧ Manuscript.id (Result.Value r0) = 42) ∧
    (∃ r, publishingPipeline 42 c = Some (r, mkClock (readings c) (5 + reads c)) ∧
          Result.IsSuccess r = true ∧
          PublishedManuscript.isbn (Result.Value r) = "ISBN-42-2023").
Proof.
  intros c. split.
  - rewrite FetchManuscript_accepts by lia. eexists. repeat split.
  - destruct (publishingPipeline_accepts 42 c) as (r & Hrun & Hok & _ & Hisbn); [lia|].
    exists r. rewrite Hrun, Hok, Hisbn. repeat split.
Qed.

(** C9. [FetchManuscript(0)] is the failure ["Invalid manuscript ID"], and
    the whole chain of [main] started from it ends in a failure holding that
    same error; no stage runs, the clock is never read. *)
Theorem pipeline_rejects_0 :
  ∀ c : Clock,
    (∃ r0, FetchManuscript 0 c = Some (r0, c) ∧
           Result.IsSuccess r0 = false ∧
           Result.Error r0 = "Invalid manuscript ID") ∧
    (∃ r, publishingPipeline 0 c = Some (r, c) ∧
          Result.IsSuccess r = false ∧
          Result.Error r = "Invalid manuscript ID").
Proof.
  intros c. split.
  - rewrite FetchManuscript_rejects by lia. eexists. repeat split.
  - unfold publishingPipeline. unfold mbind at 1, prog_bind at 1.
    rewrite FetchManuscript_rejects by lia.
    eexists. split; [reflexivity|]. split; reflexivity.
Qed.

(** * Further properties of [Result] *)

Section ResultLaws.
Context {A B C E W : Type}.
Context `{!DefaultConstructible A, !DefaultConstructible B,
          !DefaultConstructible C, !DefaultConstructible E}.

(** X1. [Bind] is associative: [r.Bind(f).Bind(g)] is [r.Bind] of the step
    that runs [f] and binds [g] to its result, for every receiver, with the
    same effects. *)
Theorem Bind_assoc (r : Result.t A E) (f : A → prog W (Result.t B E))
    (g : B → prog W (Result.t C E)) (w : W) :
  (r1 ← Result.Bind r f; Result.Bind r1 g) w
  = Result.Bind r (λ v, r1 ← f v; Result.Bind r1 g) w.
Proof.
  unfold mbind, prog_bind, Result.Bind at 1 3.
  destruct (Result.mIsSuccess r); reflexivity.
Qed.

(** X2. Binding the success factory gives back the receiver, when the
    receiver holds the value-initialised object in its unused slot, as every
    result of the constructors does. *)
Theorem Bind_Success_id (r : Result.t A E) (w : W) :
  unused_slot_default r →
  Result.Bind r (λ v, mret (Result.Success (Result.FromValue v))) w = Some (r, w).
Proof.
  unfold unused_slot_default, Result.Bind. destruct r as [[|] v e]; cbn.
  - intros ->. reflexivity.
  - intros ->. reflexivity.
Qed.

(** X3. The constructors leave the value-initialised object in the unused
    slot, and [Bind] keeps it so: when every result of the step has it, so
    has the result of [Bind], whatever the receiver. *)
Theorem Bind_keeps_unused_slot (r : Result.t A E) (f : A → prog W (Result.t B E))
    (w w' : W) (r' : Result.t B E) :
  (∀ v w0 r0 w1, f v w0 = Some (r0, w1) → unused_slot_default r0) →
  Result.Bind r f w = Some (r', w') →
  unused_slot_default r' ∧
  ∀ a : Result.ctor_arg A E, unused_slot_default (Result.construct a).
Proof.
  intros Hf Hb. split.
  - unfold Result.Bind in Hb. destruct (Result.mIsSuccess r).
    + exact (Hf _ _ _ _ Hb).
    + injection Hb as <- _. reflexivity.
  - intros [v|e]; reflexivity.
Qed.

(** X4. The two factories are one function: the kind of the argument
    selects the constructor, not the name of the factory. [Failure] of an
    argument convertible to [ValueType] is a success holding it, and
    [Success] of an argument convertible to [ErrorType] is a failure. *)
Theorem factory_tag_follows_argument (a : Result.ctor_arg A E) :
  Result.Success a = Result.Failure a ∧
  (Result.IsSuccess (Result.Failure a) = true ↔ ∃ v, a = Result.FromValue v) ∧
  (Result.IsSuccess (Result.Success a) = false ↔ ∃ e, a = Result.FromError e) ∧
  (∀ v, a = Result.FromValue v → Result.Value (Result.Failure a) = v) ∧
  (∀ e, a = Result.FromError e → Result.Error (Result.Success a) = e).
Proof.
  split; [reflexivity|]. destruct a as [v|e]; cbn.
  - split; [split; eauto|]. split; [split; [discriminate|intros [e [=]]]|].
    split; [intros v' [= <-]; reflexivity|discriminate].
  - split; [split; [discriminate|intros [v [=]]]|]. split; [split; eauto|].
    split; [discriminate|intros e' [= <-]; reflexivity].
Qed.

End ResultLaws.

Lemma Bind_Success_id_witness :
  Result.Bind (Result.Failure (ValueType := Z) (Result.FromError "negative"))
    (λ v, mret (Result.Success (Result.FromValue v))) ()
  = Some (Result.Failure (Result.FromError "negative"), ()).
Proof.
  apply (Bind_Success_id (Result.Failure (ValueType := Z) (Result.FromError "negative")) ()).
  reflexivity.
Defined.

Lemma Bind_keeps_unused_slot_witness :
  unused_slot_default
    (Result.Success (ErrorType := string) (Result.FromValue [to_string 5])).
Proof.
  refine (proj1 (Bind_keeps_unused_slot
            (Result.Success (ErrorType := string) (Result.FromValue 5)) digits_step () ()
            (Result.Success (Result.FromValue [to_string 5])) _ _)).
  - intros v w0 r0 w1. unfold digits_step.
    destruct (v <? 0); intros [= <- _]; reflexivity.
  - reflexivity.
Defined.

Lemma factory_tag_follows_argument_witness :
  Result.Value
    (Result.Failure (ErrorType := string) (Result.FromValue 7)) = 7.
Proof.
  refine (proj1 (proj2 (proj2 (proj2
            (factory_tag_follows_argument (E := string) (Result.FromValue 7))))) 7 _).
  reflexivity.
Defined.

(** * Further properties of [MutableResult] *)

Section MutableResultLaws.
Context {V E W : Type}.
Context `{!DefaultConstructible E}.
Implicit Types (m : MutableResult.t E) (s : MutableResult.store V W).
Implicit Types (f g : V → prog W V).

(** X5. [Success] then [Value] reads the value back from a cell that was not
    in use: the cells and the objects there before are as they were, and the
    environment of the callables is untouched. *)
Theorem Success_Value_roundtrip (v : V) s :
  ∃ m s', MutableResult.Success (ErrorType := E) v s = Some (m, s') ∧
          MutableResult.Value m s' = Some (v, s') ∧
          MutableResult.env s' = MutableResult.env s ∧
          (∀ l x, MutableResult.heap s !! l = Some x →
                  MutableResult.heap s' !! l = Some x ∧ MutableResult.mValue m ≠ Some l) ∧
          (∀ m0 : MutableResult.t E, MutableResult.cell_inv s m0 →
                                     MutableResult.cell_inv s' m0).
Proof.
  rewrite Success_allocates. eexists _, _. split; [reflexivity|].
  pose proof (fresh_cell_unused s) as Hfresh.
  split; [|split; [reflexivity|split]].
  - unfold MutableResult.Value, MutableResult.deref. cbn.
    rewrite lookup_insert_eq. reflexivity.
  - intros l x Hl. cbn. split.
    + rewrite lookup_insert_ne; [exact Hl|]. intros <-. congruence.
    + intros [= <-]. congruence.
  - intros m0 [Htag Hlive]. split; [exact Htag|]. intros l Hl. cbn.
    destruct (Hlive l Hl) as [x Hx].
    rewrite lookup_insert_ne; [eauto|]. intros <-. congruence.
Qed.

(** X6. A bind operation allocates and frees nothing and writes to one cell
    only, the one of the receiver: every other cell holds what it held. *)
Theorem bind_frame m f s m' s' :
  MutableResult.InPlaceBind m f s = Some (m', s') ∨
  MutableResult.ReadOnlyBind m f s = Some (m', s') →
  dom (MutableResult.heap s') = dom (MutableResult.heap s) ∧
  ∀ l, MutableResult.mValue m ≠ Some l →
       MutableResult.heap s' !! l = MutableResult.heap s !! l.
Proof.
  intros Hb.
  assert (Hb' : MutableResult.InPlaceBind m f s = Some (m', s')).
  { destruct Hb as [Hb|Hb]; [exact Hb|].
    rewrite <- ReadOnlyBind_is_InPlaceBind. exact Hb. }
  clear Hb. revert Hb'.
  unfold MutableResult.InPlaceBind, MutableResult.call_on_cell, mbind, prog_bind.
  destruct (MutableResult.mIsSuccess m && MutableResult.non_null (MutableResult.mValue m)).
  - destruct (MutableResult.mValue m) as [l|]; [|discriminate].
    destruct (MutableResult.heap s !! l) as [v|] eqn:Hl; [|discriminate].
    destruct (f v (MutableResult.env s)) as [[v' w']|]; [|discriminate].
    intros [= <- <-]. cbn. split.
    + rewrite dom_insert_L. apply elem_of_dom_2 in Hl.
      apply leibniz_equiv. intros x. rewrite elem_of_union, elem_of_singleton.
      split; [intros [->|Hx]; assumption|auto].
    + intros l' Hne. apply lookup_insert_ne. congruence.
  - intros [= <- <-]. auto.
Qed.

(** X7. Two calls of [Success] give objects that share nothing: a mutation
    through the first is read back from the first and leaves the value of the
    second alone. *)
Theorem separate_results_independent (a b a' : V) f s w' :
  f a (MutableResult.env s) = Some (a', w') →
  ∃ s', (m1 ← MutableResult.Success (ErrorType := E) a;
         m2 ← MutableResult.Success (ErrorType := E) b;
         _ ← MutableResult.InPlaceBind m1 f;
         v1 ← MutableResult.Value m1;
         v2 ← MutableResult.Value m2;
         mret (v1, v2)) s = Some ((a', b), s').
Proof.
  intros Hf. unfold mbind at 1, prog_bind at 1. rewrite Success_allocates.
  unfold mbind at 1, prog_bind at 1. rewrite Success_allocates.
  cbn [MutableResult.heap MutableResult.env].
  set (l1 := fresh (dom (MutableResult.heap s))).
  set (h1 := <[l1 := a]> (MutableResult.heap s)).
  set (l2 := fresh (dom h1)).
  assert (Hne : l2 ≠ l1).
  { intros Heq. pose proof (is_fresh (dom h1)) as Hfresh. fold l2 in Hfresh.
    apply Hfresh. rewrite Heq. unfold h1. rewrite dom_insert_L. set_solver. }
  unfold mbind at 1, prog_bind at 1.
  rewrite (InPlaceBind_live _ f _ l1 a); [|reflexivity|reflexivity|].
  2:{ cbn. rewrite lookup_insert_ne by exact Hne. apply lookup_insert_eq. }
  cbn [MutableResult.heap MutableResult.env]. rewrite Hf.
  unfold mbind, prog_bind, MutableResult.Value, MutableResult.deref.
  cbn [MutableResult.mValue MutableResult.heap].
  rewrite lookup_insert_eq. cbn [MutableResult.heap].
  rewrite lookup_insert_ne by congruence. rewrite lookup_insert_eq.
  eexists. reflexivity.
Qed.

(** X8. Two [InPlaceBind] calls in a row are one [InPlaceBind] of the two
    callables run one after the other, for every receiver and every state:
    same receiver returned, same cells, same effects, same undefinedness. *)
Theorem InPlaceBind_fusion m f g s :
  (m1 ← MutableResult.InPlaceBind m f; MutableResult.InPlaceBind m1 g) s
  = MutableResult.InPlaceBind m (then_call f g) s.
Proof.
  unfold mbind at 1, prog_bind at 1.
  destruct (MutableResult.mIsSuccess m) eqn:Ht.
  2:{ rewrite !InPlaceBind_failure by exact Ht. reflexivity. }
  destruct (MutableResult.mValue m) as [l|] eqn:Hp.
  2:{ rewrite !InPlaceBind_null by exact Hp. reflexivity. }
  destruct (MutableResult.heap s !! l) as [v|] eqn:Hl.
  - rewrite (InPlaceBind_live m f s l v Ht Hp Hl).
    rewrite (InPlaceBind_live m (then_call f g) s l v Ht Hp Hl).
    unfold then_call, mbind, prog_bind.
    destruct (f v (MutableResult.env s)) as [[v1 w1]|]; [|reflexivity].
    rewrite (InPlaceBind_live m g _ l v1 Ht Hp) by apply lookup_insert_eq.
    cbn [MutableResult.heap MutableResult.env].
    destruct (g v1 w1) as [[v2 w2]|]; [|reflexivity].
    rewrite insert_insert_eq. reflexivity.
  - unfold MutableResult.InPlaceBind, MutableResult.call_on_cell, mbind, prog_bind.
    rewrite Ht, Hp. cbn [andb MutableResult.non_null]. rewrite Hl. reflexivity.
Qed.

(** X9. The bind operations never dereference a null pointer: on an object
    whose pointer is null they return the receiver and change nothing,
    whatever the tag says, where [Value()] is undefined. *)
Theorem binds_guard_null_pointer m f s :
  MutableResult.mValue m = None →
  MutableResult.InPlaceBind m f s = Some (m, s) ∧
  MutableResult.ReadOnlyBind m f s = Some (m, s) ∧
  MutableResult.Value m s = None.
Proof.
  intros Hp. split; [|split].
  - apply InPlaceBind_null, Hp.
  - rewrite ReadOnlyBind_is_InPlaceBind. apply InPlaceBind_null, Hp.
  - unfold MutableResult.Value, MutableResult.deref. rewrite Hp. reflexivity.
Qed.

(** X10. On an object whose tag and cell agree, [Value()] is undefined
    exactly when the object is a failure, and a bind operation is undefined
    exactly when the object is a success and the callable is undefined on the
    contents of the cell. *)
Theorem undefined_only_as_stated m f s :
  MutableResult.cell_inv s m →
  (MutableResult.Value m s = None ↔ MutableResult.IsSuccess m = false) ∧
  (MutableResult.InPlaceBind m f s = None ↔
     ∃ l v, MutableResult.IsSuccess m = true ∧ MutableResult.mValue m = Some l ∧
            MutableResult.heap s !! l = Some v ∧ f v (MutableResult.env s) = None) ∧
  MutableResult.ReadOnlyBind m f s = MutableResult.InPlaceBind m f s.
Proof.
  unfold MutableResult.IsSuccess. intros Hinv. split; [|split; [|reflexivity]].
  - destruct (MutableResult.mIsSuccess m) eqn:Ht.
    + destruct (cell_inv_success_live m s Hinv Ht) as (l & v & Hp & Hl).
      unfold MutableResult.Value, MutableResult.deref. rewrite Hp, Hl.
      split; intros Hcontra; discriminate Hcontra.
    + destruct Hinv as [Htag _].
      unfold MutableResult.Value, MutableResult.deref.
      destruct (MutableResult.mValue m) as [l|]; [|tauto].
      destruct Htag as [_ Htag]. specialize (Htag eq_refl). congruence.
  - destruct (MutableResult.mIsSuccess m) eqn:Ht.
    + destruct (cell_inv_success_live m s Hinv Ht) as (l & v & Hp & Hl).
      rewrite (InPlaceBind_live m f s l v Ht Hp Hl). split.
      * intros Hnone. exists l, v.
        destruct (f v (MutableResult.env s)) as [[v' w']|]; [discriminate|auto].
      * intros (l' & v' & _ & Hp' & Hl' & Hf).
        assert (l' = l) as -> by congruence.
        assert (v' = v) as -> by congruence.
        rewrite Hf. reflexivity.
    + rewrite InPlaceBind_failure by exact Ht.
      split; [intros Hcontra; discriminate Hcontra|].
      intros (l & v & Hcontra & _). discriminate Hcontra.
Qed.

End MutableResultLaws.

Lemma Success_Value_roundtrip_witness :
  ∃ m s', MutableResult.Success (ErrorType := string) 5
            (MutableResult.mkStore {[ 1%positive := 0 ]} ()) = Some (m, s') ∧
          MutableResult.Value m s' = Some (5, s') ∧
          MutableResult.heap s' !! 1%positive = Some 0.
Proof.
  destruct (Success_Value_roundtrip (E := string) 5
              (MutableResult.mkStore {[ 1%positive := 0 ]} ()))
    as (m & s' & Hnew & Hread & _ & Hold & _).
  exists m, s'. split; [exact Hnew|]. split; [exact Hread|].
  apply (Hold 1%positive 0). reflexivity.
Defined.

Lemma bind_frame_witness :
  MutableResult.heap
    (MutableResult.mkStore (W := unit) (<[1%positive := 5]> {[ 1%positive := 0; 2%positive := 7 ]}) ())
    !! 2%positive
  = MutableResult.heap
      (MutableResult.mkStore (W := unit) {[ 1%positive := 0; 2%positive := 7 ]} ())
      !! 2%positive.
Proof.
  refine (proj2 (bind_frame
            (MutableResult.mk (ErrorType := string) (Some 1%positive) value_init true)
            add_five
            (MutableResult.mkStore {[ 1%positive := 0; 2%positive := 7 ]} ())
            (MutableResult.mk (Some 1%positive) value_init true)
            (MutableResult.mkStore
               (<[1%positive := 5]> {[ 1%positive := 0; 2%positive := 7 ]}) ()) _)
            2%positive _).
  - left. vm_compute. reflexivity.
  - cbn. discriminate.
Defined.

Lemma separate_results_independent_witness :
  ∃ s', (m1 ← MutableResult.Success (ErrorType := string) 0;
         m2 ← MutableResult.Success (ErrorType := string) 7;
         _ ← MutableResult.InPlaceBind m1 add_five;
         v1 ← MutableResult.Value m1;
         v2 ← MutableResult.Value m2;
         mret (v1, v2)) empty_store = Some ((5, 7), s').
Proof.
  apply (separate_results_independent (E := string) 0 7 5 add_five empty_store ()).
  reflexivity.
Defined.

Lemma binds_guard_null_pointer_witness :
  MutableResult.InPlaceBind (MutableResult.mk None "err" true) add_five empty_store
    = Some (MutableResult.mk None "err" true, empty_store) ∧
  MutableResult.ReadOnlyBind (MutableResult.mk None "err" true) add_five empty_store
    = Some (MutableResult.mk None "err" true, empty_store) ∧
  MutableResult.Value (ValueType := Z) (MutableResult.mk None "err" true) empty_store
    = None.
Proof.
  apply (binds_guard_null_pointer (MutableResult.mk None "err" true) add_five empty_store).
  reflexivity.
Defined.

Lemma undefined_only_as_stated_witness :
  MutableResult.InPlaceBind
    (MutableResult.mk (ErrorType := string) (Some 1%positive) value_init true) add_five
    (MutableResult.mkStore {[ 1%positive := int_max ]} ()) = None.
Proof.
  refine (proj2 (proj1 (proj2 (undefined_only_as_stated
            (MutableResult.mk (ErrorType := string) (Some 1%positive) value_init true)
            add_five (MutableResult.mkStore {[ 1%positive := int_max ]} ()) _))) _).
  - split; [split; reflexivity|]. cbn. intros l [= <-]. exists int_max. reflexivity.
  - exists 1%positive, int_max. repeat split.
Defined.

(** * Further properties of the publishing pipeline *)

Lemma string_app_cons (a : Ascii.ascii) (s t : string) :
  String a s +:+ t = String a (s +:+ t).
Proof. reflexivity. Qed.

Lemma string_app_assoc (s1 s2 s3 : string) :
  (s1 +:+ s2) +:+ s3 = s1 +:+ (s2 +:+ s3).
Proof.
  induction s1 as [|a s1 IH]; [reflexivity|].
  rewrite !string_app_cons, IH. reflexivity.
Qed.

Lemma string_length_app (s1 s2 : string) :
  String.length (s1 +:+ s2) = (String.length s1 + String.length s2)%nat.
Proof.
  induction s1 as [|a s1 IH]; [reflexivity|].
  rewrite string_app_cons. cbn [String.length]. rewrite IH. reflexivity.
Qed.

Lemma string_app_inv_tail (s1 s2 t : string) :
  s1 +:+ t = s2 +:+ t → s1 = s2.
Proof.
  revert s2. induction s1 as [|a s1 IH]; intros [|b s2] Heq.
  - reflexivity.
  - apply (f_equal String.length) in Heq.
    rewrite !string_length_app in Heq. cbn [String.length] in Heq. lia.
  - apply (f_equal String.length) in Heq.
    rewrite !string_length_app in Heq. cbn [String.length] in Heq. lia.
  - rewrite !string_app_cons in Heq. injection Heq as -> Heq.
    f_equal. apply IH, Heq.
Qed.

Lemma to_int_not_nil (n : Z) :
  Z.to_int n ≠ Decimal.Pos Decimal.Nil ∧ Z.to_int n ≠ Decimal.Neg Decimal.Nil.
Proof.
  destruct n as [|p|p]; cbn; split; try discriminate;
    intros [= Hp]; exact (DecimalPos.Unsigned.to_uint_nonnil p Hp).
Qed.

Lemma to_string_inj (n1 n2 : Z) : to_string n1 = to_string n2 → n1 = n2.
Proof.
  unfold to_string. intros Heq.
  apply (f_equal NilZero.int_of_string) in Heq.
  destruct (to_int_not_nil n1) as [H1 H1'], (to_int_not_nil n2) as [H2 H2'].
  rewrite !NilZero.isi in Heq by assumption.
  injection Heq as Heq. apply DecimalZ.to_int_inj, Heq.
Qed.

Lemma string_empty_spec (s : string) : string_empty s = true ↔ s = EmptyString.
Proof. destruct s; cbn; split; congruence. Qed.

Lemma vector_empty_spec {T} (v : list T) : vector_empty v = true ↔ v = [].
Proof. destruct v; cbn; split; congruence. Qed.

(** X11. [FetchManuscript] fails exactly on an identifier that is zero or
    negative, with ["Invalid manuscript ID"] and without reading the clock;
    on every other identifier it succeeds with the fixed manuscript carrying
    that identifier and the time read from the clock, which it reads once. *)
Theorem FetchManuscript_fails_iff (manuscriptId : Z) (c : Clock) :
  ∃ r c', FetchManuscript manuscriptId c = Some (r, c') ∧
    (Result.IsSuccess r = false ↔ manuscriptId ≤ 0) ∧
    (Result.IsSuccess r = false →
       Result.Error r = "Invalid manuscript ID" ∧ c' = c) ∧
    (Result.IsSuccess r = true →
       Result.Value r = Manuscript.mk manuscriptId "The Art of Programming"
                          "Initial content..." "John Doe" (readings c (reads c)) ∧
       c' = mkClock (readings c) (S (reads c))).
Proof.
  destruct (Z.le_gt_cases manuscriptId 0) as [Hle|Hgt].
  - rewrite FetchManuscript_rejects by exact Hle. eexists _, _.
    split; [reflexivity|]. cbn. split; [tauto|]. split; [auto|discriminate].
  - rewrite FetchManuscript_accepts by exact Hgt. eexists _, _.
    split; [reflexivity|]. cbn. split; [split; [discriminate|lia]|].
    split; [discriminate|auto].
Qed.

(** X12. [EditManuscript] fails exactly on empty content, with
    ["Empty manuscript content"] and without reading the clock; otherwise it
    keeps identifier, title and author, appends the editing line to the
    content, attaches the two editorial notes and reads the clock once. *)
Theorem EditManuscript_fails_iff (m : Manuscript.t) (c : Clock) :
  ∃ r c', EditManuscript m c = Some (r, c') ∧
    (Result.IsSuccess r = false ↔ Manuscript.content m = EmptyString) ∧
    (Result.IsSuccess r = false →
       Result.Error r = "Empty manuscript content" ∧ c' = c) ∧
    (Result.IsSuccess r = true →
       Result.Value r = EditedManuscript.mk (Manuscript.id m) (Manuscript.title m)
                          (Manuscript.content m +:+ LF +:+ "Edited content...")
                          (Manuscript.author m)
                          ["Fixed grammar"; "Improved structure"] (readings c (reads c)) ∧
       c' = mkClock (readings c) (S (reads c))).
Proof.
  destruct (string_empty (Manuscript.content m)) eqn:He.
  - unfold EditManuscript. rewrite He. apply string_empty_spec in He.
    eexists _, _. split; [reflexivity|]. cbn.
    split; [tauto|]. split; [auto|discriminate].
  - rewrite EditManuscript_accepts by exact He. eexists _, _.
    split; [reflexivity|]. cbn. split; [|split; [discriminate|auto]].
    split; [discriminate|]. intros Hc. apply string_empty_spec in Hc. congruence.
Qed.

(** X13. [FormatManuscript] fails exactly on a manuscript without editorial
    notes, with ["No editorial notes found"] and without reading the clock;
    otherwise it keeps identifier, title and author, appends the formatting
    line, sets the format to ["IEEE"] and reads the clock once. *)
Theorem FormatManuscript_fails_iff (em : EditedManuscript.t) (c : Clock) :
  ∃ r c', FormatManuscript em c = Some (r, c') ∧
    (Result.IsSuccess r = false ↔ EditedManuscript.editorial_notes em = []) ∧
    (Result.IsSuccess r = false →
       Result.Error r = "No editorial notes found" ∧ c' = c) ∧
    (Result.IsSuccess r = true →
       Result.Value r = FormattedManuscript.mk (EditedManuscript.id em)
                          (EditedManuscript.title em)
                          (EditedManuscript.content em +:+ LF +:+
                             "Formatted according to style guide...")
                          (EditedManuscript.author em) "IEEE" (readings c (reads c)) ∧
       c' = mkClock (readings c) (S (reads c))).
Proof.
  destruct (vector_empty (EditedManuscript.editorial_notes em)) eqn:He.
  - unfold FormatManuscript. rewrite He. apply vector_empty_spec in He.
    eexists _, _. split; [reflexivity|]. cbn.
    split; [tauto|]. split; [auto|discriminate].
  - rewrite FormatManuscript_accepts by exact He. eexists _, _.
    split; [reflexivity|]. cbn. split; [|split; [discriminate|auto]].
    split; [discriminate|]. intros Hc. apply vector_empty_spec in Hc. congruence.
Qed.

(** X14. [ReviewManuscript] fails exactly on a format other than ["IEEE"],
    with ["Invalid format type"] and without reading the clock; otherwise it
    keeps identifier, title, content and author, approves the manuscript
    with the two review comments and reads the clock once. *)
Theorem ReviewManuscript_fails_iff (fm : FormattedManuscript.t) (c : Clock) :
  ∃ r c', ReviewManuscript fm c = Some (r, c') ∧
    (Result.IsSuccess r = false ↔ FormattedManuscript.format_type fm ≠ "IEEE") ∧
    (Result.IsSuccess r = false →
       Result.Error r = "Invalid format type" ∧ c' = c) ∧
    (Result.IsSuccess r = true →
       Result.Value r = ReviewedManuscript.mk (FormattedManuscript.id fm)
                          (FormattedManuscript.title fm)
                          (FormattedManuscript.formatted_content fm)
                          (FormattedManuscript.author fm) true
                          ["Excellent work"; "Ready for publication"]
                          (readings c (reads c)) ∧
       c' = mkClock (readings c) (S (reads c))).
Proof.
  destruct (String.eqb_spec (FormattedManuscript.format_type fm) "IEEE") as [He|Hne].
  - rewrite ReviewManuscript_accepts by exact He. eexists _, _.
    split; [reflexivity|]. cbn. split; [|split; [discriminate|auto]].
    split; [discriminate|]. intros Hc. contradiction.
  - unfold ReviewManuscript.
    apply String.eqb_neq in Hne as Hb. rewrite Hb.
    eexists _, _. split; [reflexivity|]. cbn.
    split; [tauto|]. split; [auto|discriminate].
Qed.

(** X15. [PublishManuscript] fails exactly on a manuscript that is not
    approved, with ["Manuscript not approved"] and without reading the clock;
    otherwise it keeps identifier, title, content and author, sets the ISBN
    to ["ISBN-"], the decimal identifier and ["-2023"], and reads the clock
    once. *)
Theorem PublishManuscript_fails_iff (rm : ReviewedManuscript.t) (c : Clock) :
  ∃ r c', PublishManuscript rm c = Some (r, c') ∧
    (Result.IsSuccess r = false ↔ ReviewedManuscript.approved rm = false) ∧
    (Result.IsSuccess r = false →
       Result.Error r = "Manuscript not approved" ∧ c' = c) ∧
    (Result.IsSuccess r = true →
       Result.Value r = PublishedManuscript.mk (ReviewedManuscript.id rm)
                          (ReviewedManuscript.title rm)
                          (ReviewedManuscript.formatted_content rm)
                          (ReviewedManuscript.author rm)
                          ("ISBN-" +:+ to_string (ReviewedManuscript.id rm) +:+ "-2023")
                          (readings c (reads c)) ∧
       c' = mkClock (readings c) (S (reads c))).
Proof.
  destruct (ReviewedManuscript.approved rm) eqn:He.
  - rewrite PublishManuscript_accepts by exact He. eexists _, _.
    split; [reflexivity|]. cbn. split; [|split; [discriminate|auto]].
    split; discriminate.
  - unfold PublishManuscript. rewrite He.
    eexists _, _. split; [reflexivity|]. cbn.
    split; [tauto|]. split; [auto|discriminate].
Qed.

Lemma stages_after_edit (m : Manuscript.t) (c : Clock) :
  string_empty (Manuscript.content m) = false →
  (edited ← EditManuscript m;
   formatted ← Result.Bind edited FormatManuscript;
   reviewed ← Result.Bind formatted ReviewManuscript;
   Result.Bind reviewed PublishManuscript) c
  = Some (Result.mk true
            (PublishedManuscript.mk (Manuscript.id m) (Manuscript.title m)
               ((Manuscript.content m +:+ LF +:+ "Edited content...") +:+ LF +:+
                  "Formatted according to style guide...")
               (Manuscript.author m)
               ("ISBN-" +:+ to_string (Manuscript.id m) +:+ "-2023")
               (readings c (3 + reads c)))
            value_init,
          mkClock (readings c) (4 + reads c)).
Proof.
  intros Hm. unfold mbind, prog_bind.
  rewrite EditManuscript_accepts by exact Hm.
  rewrite Bind_unfold_success, FormatManuscript_accepts by reflexivity.
  rewrite Bind_unfold_success, ReviewManuscript_accepts by reflexivity.
  rewrite Bind_unfold_success, PublishManuscript_accepts by reflexivity.
  reflexivity.
Qed.

Lemma publishingPipeline_value (manuscriptId : Z) (c : Clock) :
  0 < manuscriptId →
  publishingPipeline manuscriptId c
  = Some (Result.mk true
            (PublishedManuscript.mk manuscriptId "The Art of Programming"
               (("Initial content..." +:+ LF +:+ "Edited content...") +:+ LF +:+
                  "Formatted according to style guide...")
               "John Doe"
               ("ISBN-" +:+ to_string manuscriptId +:+ "-2023")
               (readings c (4 + reads c)))
            value_init,
          mkClock (readings c) (5 + reads c)).
Proof.
  intros Hid. unfold publishingPipeline. unfold mbind at 1, prog_bind at 1.
  rewrite FetchManuscript_accepts by exact Hid.
  rewrite Bind_unfold_success by reflexivity.
  cbn [Result.mValue].
  pose proof (stages_after_edit
                (Manuscript.mk manuscriptId "The Art of Programming"
                   "Initial content..." "John Doe" (readings c (reads c)))
                (mkClock (readings c) (S (reads c))) eq_refl) as Hrest.
  unfold mbind at 1, prog_bind at 1 in Hrest.
  unfold mbind at 1, prog_bind at 1.
  exact Hrest.
Qed.

Lemma publishingPipeline_rejects (manuscriptId : Z) (c : Clock) :
  manuscriptId ≤ 0 →
  publishingPipeline manuscriptId c
  = Some (Result.mk false value_init "Invalid manuscript ID", c).
Proof.
  intros Hid. unfold publishingPipeline. unfold mbind at 1, prog_bind at 1.
  rewrite FetchManuscript_rejects by exact Hid. reflexivity.
Qed.

(** X16. Once [EditManuscript] has a manuscript with content, nothing after
    it can fail: for every such manuscript the chain through
    [FormatManuscript], [ReviewManuscript] and [PublishManuscript] ends in a
    success carrying the identifier, title and author of the manuscript,
    after four readings of the clock. The failures of the last three stages
    are out of reach of the chain. *)
Theorem later_stages_never_fail (m : Manuscript.t) (c : Clock) :
  Manuscript.content m ≠ EmptyString →
  ∃ r, (edited ← EditManuscript m;
        formatted ← Result.Bind edited FormatManuscript;
        reviewed ← Result.Bind formatted ReviewManuscript;
        Result.Bind reviewed PublishManuscript) c
         = Some (r, mkClock (readings c) (4 + reads c)) ∧
       Result.IsSuccess r = true ∧
       PublishedManuscript.id (Result.Value r) = Manuscript.id m ∧
       PublishedManuscript.title (Result.Value r) = Manuscript.title m ∧
       PublishedManuscript.author (Result.Value r) = Manuscript.author m.
Proof.
  intros Hm. rewrite stages_after_edit.
  - eexists. split; [reflexivity|]. repeat split.
  - destruct (string_empty (Manuscript.content m)) eqn:He; [|reflexivity].
    apply string_empty_spec in He. contradiction.
Qed.

(** X17. The pipeline of [main] always returns, and succeeds exactly on a
    positive identifier. Its only failure is ["Invalid manuscript ID"], on
    which the clock has not been read; the errors of the four later stages
    never come out of it. *)
Theorem publishingPipeline_succeeds_iff (manuscriptId : Z) (c : Clock) :
  ∃ r c', publishingPipeline manuscriptId c = Some (r, c') ∧
    (Result.IsSuccess r = true ↔ 0 < manuscriptId) ∧
    (Result.IsSuccess r = false →
       Result.Error r = "Invalid manuscript ID" ∧ c' = c) ∧
    (Result.IsSuccess r = true → c' = mkClock (readings c) (5 + reads c)).
Proof.
  destruct (Z.le_gt_cases manuscriptId 0) as [Hle|Hgt].
  - rewrite publishingPipeline_rejects by exact Hle. eexists _, _.
    split; [reflexivity|]. cbn. split; [split; [discriminate|lia]|].
    split; [auto|discriminate].
  - rewrite publishingPipeline_value by exact Hgt. eexists _, _.
    split; [reflexivity|]. cbn. split; [tauto|]. split; [discriminate|auto].
Qed.

(** X18. For a positive identifier the published manuscript is the fixed
    title and author under that identifier, the initial content followed by
    the editing line and the formatting line, the ISBN made of the decimal
    identifier, and as publication date the fifth reading of the clock; the
    error slot holds the empty string. *)
Theorem published_manuscript (manuscriptId : Z) (c : Clock) :
  0 < manuscriptId →
  ∃ r c', publishingPipeline manuscriptId c = Some (r, c') ∧
    Result.Value r
      = PublishedManuscript.mk manuscriptId "The Art of Programming"
          ("Initial content..." +:+ LF +:+ "Edited content..." +:+ LF +:+
             "Formatted according to style guide...")
          "John Doe"
          ("ISBN-" +:+ to_string manuscriptId +:+ "-2023")
          (readings c (4 + reads c)) ∧
    Result.Error r = EmptyString.
Proof.
  intros Hid. rewrite publishingPipeline_value by exact Hid. eexists _, _.
  split; [reflexivity|]. split; reflexivity.
Qed.

Lemma PublishManuscript_success_inv (rm : ReviewedManuscript.t) (c c' : Clock)
    (r : Result.t PublishedManuscript.t string) :
  PublishManuscript rm c = Some (r, c') →
  Result.IsSuccess r = true →
  PublishedManuscript.isbn (Result.Value r)
    = "ISBN-" +:+ to_string (ReviewedManuscript.id rm) +:+ "-2023".
Proof.
  destruct (ReviewedManuscript.approved rm) eqn:He.
  - rewrite PublishManuscript_accepts by exact He. intros [= <- _] _. reflexivity.
  - unfold PublishManuscript. rewrite He. intros [= <- _] Hs. discriminate Hs.
Qed.

(** X19. The ISBN tells manuscripts apart: two manuscripts that
    [PublishManuscript] publishes under the same ISBN have the same
    identifier. *)
Theorem isbn_determines_id (rm1 rm2 : ReviewedManuscript.t) (c1 c2 c1' c2' : Clock)
    (r1 r2 : Result.t PublishedManuscript.t string) :
  PublishManuscript rm1 c1 = Some (r1, c1') →
  PublishManuscript rm2 c2 = Some (r2, c2') →
  Result.IsSuccess r1 = true →
  Result.IsSuccess r2 = true →
  PublishedManuscript.isbn (Result.Value r1) = PublishedManuscript.isbn (Result.Value r2) →
  ReviewedManuscript.id rm1 = ReviewedManuscript.id rm2.
Proof.
  intros H1 H2 Hs1 Hs2 Hisbn.
  rewrite (PublishManuscript_success_inv rm1 c1 c1' r1 H1 Hs1) in Hisbn.
  rewrite (PublishManuscript_success_inv rm2 c2 c2' r2 H2 Hs2) in Hisbn.
  apply String.app_inj in Hisbn. apply string_app_inv_tail in Hisbn.
  apply to_string_inj, Hisbn.
Qed.

(** * Properties of [main] *)

Section MainFacts.
Variable ctime : Z → string.

(** X20. On an identifier that is zero or negative, [main] prints the prompt
    and then the one line naming ["Invalid manuscript ID"], never reads the
    clock and exits with status [0]. *)
Theorem main_reports_failure (manuscriptId : Z) (k : Console) :
  manuscriptId ≤ 0 →
  main ctime manuscriptId k
  = Some (0, mkConsole (clock k)
               (cout_text k +:+ "Enter manuscript ID: " +:+
                  "Error in publishing pipeline: Invalid manuscript ID" +:+ LF)).
Proof.
  intros Hid. unfold main, mbind, prog_bind, cout, with_clock.
  cbn [clock cout_text]. rewrite publishingPipeline_rejects by exact Hid.
  cbn [Result.IsSuccess Result.Error Result.mIsSuccess Result.mError clock cout_text
         mret prog_ret].
  rewrite !string_app_assoc. reflexivity.
Qed.

(** X21. On a positive identifier, [main] prints the prompt and the report
    of the publication: the fixed title and author, the ISBN made of the
    decimal identifier, and the calendar text of the fifth reading of the
    clock; it has read the clock five times and exits with status [0]. *)
Theorem main_reports_success (manuscriptId : Z) (k : Console) :
  0 < manuscriptId →
  main ctime manuscriptId k
  = Some (0, mkConsole (mkClock (readings (clock k)) (5 + reads (clock k)))
               (cout_text k +:+ "Enter manuscript ID: " +:+
                  "Successfully published!" +:+ LF +:+
                  "Title: The Art of Programming" +:+ LF +:+
                  "Author: John Doe" +:+ LF +:+
                  "ISBN: ISBN-" +:+ to_string manuscriptId +:+ "-2023" +:+ LF +:+
                  "Publish Date: " +:+
                  ctime (readings (clock k) (4 + reads (clock k))))).
Proof.
  intros Hid. unfold main, mbind, prog_bind, cout, with_clock.
  cbn [clock cout_text]. rewrite publishingPipeline_value by exact Hid.
  cbn [Result.IsSuccess Result.Value Result.mIsSuccess Result.mValue clock cout_text
         mret prog_ret PublishedManuscript.title PublishedManuscript.author
         PublishedManuscript.isbn PublishedManuscript.publish_date].
  rewrite !string_app_assoc. reflexivity.
Qed.

End MainFacts.

(** * Sample runs *)

Lemma FetchManuscript_fails_iff_witness :
  ∃ r, FetchManuscript (-3) epoch = Some (r, epoch) ∧
       Result.Error r = "Invalid manuscript ID".
Proof.
  destruct (FetchManuscript_fails_iff (-3) epoch) as (r & c' & Hrun & Hiff & Hfail & _).
  assert (Hr : Result.IsSuccess r = false) by (apply Hiff; lia).
  destruct (Hfail Hr) as [He ->]. exists r. split; assumption.
Defined.

Lemma EditManuscript_fails_iff_witness :
  ∃ r, EditManuscript blank_manuscript epoch = Some (r, epoch) ∧
       Result.Error r = "Empty manuscript content".
Proof.
  destruct (EditManuscript_fails_iff blank_manuscript epoch)
    as (r & c' & Hrun & Hiff & Hfail & _).
  assert (Hr : Result.IsSuccess r = false) by (apply Hiff; reflexivity).
  destruct (Hfail Hr) as [He ->]. exists r. split; assumption.
Defined.

Lemma FormatManuscript_fails_iff_witness :
  ∃ r, FormatManuscript unedited_manuscript epoch = Some (r, epoch) ∧
       Result.Error r = "No editorial notes found".
Proof.
  destruct (FormatManuscript_fails_iff unedited_manuscript epoch)
    as (r & c' & Hrun & Hiff & Hfail & _).
  assert (Hr : Result.IsSuccess r = false) by (apply Hiff; reflexivity).
  destruct (Hfail Hr) as [He ->]. exists r. split; assumption.
Defined.

Lemma ReviewManuscript_fails_iff_witness :
  ∃ r, ReviewManuscript plain_manuscript epoch = Some (r, epoch) ∧
       Result.Error r = "Invalid format type".
Proof.
  destruct (ReviewManuscript_fails_iff plain_manuscript epoch)
    as (r & c' & Hrun & Hiff & Hfail & _).
  assert (Hr : Result.IsSuccess r = false) by (apply Hiff; discriminate).
  destruct (Hfail Hr) as [He ->]. exists r. split; assumption.
Defined.

Lemma PublishManuscript_fails_iff_witness :
  ∃ r, PublishManuscript rejected_manuscript epoch = Some (r, epoch) ∧
       Result.Error r = "Manuscript not approved".
Proof.
  destruct (PublishManuscript_fails_iff rejected_manuscript epoch)
    as (r & c' & Hrun & Hiff & Hfail & _).
  assert (Hr : Result.IsSuccess r = false) by (apply Hiff; reflexivity).
  destruct (Hfail Hr) as [He ->]. exists r. split; assumption.
Defined.

Lemma later_stages_never_fail_witness :
  ∃ r, (edited ← EditManuscript draft_manuscript;
        formatted ← Result.Bind edited FormatManuscript;
        reviewed ← Result.Bind formatted ReviewManuscript;
        Result.Bind reviewed PublishManuscript) epoch
         = Some (r, mkClock (readings epoch) 4) ∧
       Result.IsSuccess r = true ∧
       PublishedManuscript.id (Result.Value r) = 3.
Proof.
  destruct (later_stages_never_fail draft_manuscript epoch)
    as (r & Hrun & Hok & Hid & _); [discriminate|].
  exists r. split; [exact Hrun|]. split; [exact Hok|exact Hid].
Defined.

Lemma publishingPipeline_succeeds_iff_witness :
  ∃ r c', publishingPipeline 1 epoch = Some (r, c') ∧ Result.IsSuccess r = true.
Proof.
  destruct (publishingPipeline_succeeds_iff 1 epoch) as (r & c' & Hrun & Hiff & _).
  exists r, c'. split; [exact Hrun|]. apply Hiff. lia.
Defined.

Lemma published_manuscript_witness :
  ∃ r c', publishingPipeline 7 epoch = Some (r, c') ∧
    PublishedManuscript.isbn (Result.Value r) = "ISBN-7-2023" ∧
    PublishedManuscript.publish_date (Result.Value r) = 1700000004.
Proof.
  destruct (published_manuscript 7 epoch) as (r & c' & Hrun & Hval & _); [lia|].
  exists r, c'. split; [exact Hrun|]. rewrite Hval. split; reflexivity.
Defined.

Lemma isbn_determines_id_witness :
  ReviewedManuscript.id approved_manuscript
  = ReviewedManuscript.id
      (ReviewedManuscript.mk 3 "Second copy" "Text" "John Doe" true ["Fine"] 9).
Proof.
  apply (isbn_determines_id approved_manuscript
           (ReviewedManuscript.mk 3 "Second copy" "Text" "John Doe" true ["Fine"] 9)
           epoch epoch (mkClock (readings epoch) 1) (mkClock (readings epoch) 1)
           (Result.Success (Result.FromValue
              (PublishedManuscript.mk 3 "Untitled" "Draft" "Jane Roe" "ISBN-3-2023"
                 1700000000)))
           (Result.Success (Result.FromValue
              (PublishedManuscript.mk 3 "Second copy" "Text" "John Doe" "ISBN-3-2023"
                 1700000000)))).
  - reflexivity.
  - reflexivity.
  - reflexivity.
  - reflexivity.
  - reflexivity.
Defined.

Lemma main_reports_failure_witness :
  main seconds_text 0 terminal
  = Some (0, mkConsole epoch
               ("Enter manuscript ID: " +:+
                  "Error in publishing pipeline: Invalid manuscript ID" +:+ LF)).
Proof.
  apply (main_reports_failure seconds_text 0 terminal). lia.
Defined.

Lemma main_reports_success_witness :
  main seconds_text 42 terminal
  = Some (0, mkConsole (mkClock (readings epoch) 5)
               ("Enter manuscript ID: " +:+
                  "Successfully published!" +:+ LF +:+
                  "Title: The Art of Programming" +:+ LF +:+
                  "Author: John Doe" +:+ LF +:+
                  "ISBN: ISBN-42-2023" +:+ LF +:+
                  "Publish Date: 1700000004" +:+ LF)).
Proof.
  apply (main_reports_success seconds_text 42 terminal). lia.
Defined.
